(** * zap-logger-wrapper: the logging facade over the zap engine

    Shallow embedding of the two variants of package [logger]:
    - [LoggerV2]: the functional-options variant, [New(service, opts...)]
      (src/unnamed/part_000);
    - [LoggerV1]: the positional variant,
      [New(service, fn, level, outputPaths...)] (src/logger.go).

    A [*Logger] is a pointer: facades live in a heap of [Logger] structs.
    The variadic [keyVals ...interface{}] is a Go slice: a window on a backing
    array that the caller may share, and [append] writes into that array when
    the window has spare capacity.  Every operation passes the state (heap
    of facades, backing arrays, outside world) explicitly.  A dereference of
    a pointer that is not allocated is Go's nil-pointer panic, and so is the
    call of a nil function; a panic is modelled by [None].  Slices that the
    wrapper only reads ([outputPaths]) are the lists of their elements.

    The zap engine is an external collaborator.  The wrapper is written over
    the interface [Engine]; [ZapModel] is an executable instance of it, with
    the level gate and the sampler of the production configuration. *)

From stdpp Require Import base option list strings gmap.
From Stdlib Require Import ZArith Lia.

Local Open Scope string_scope.
Local Open Scope list_scope.
Local Open Scope Z_scope.

(** ** Values shared by both variants *)

(** [interface{}] values that occur as keys and values of log fields. *)
Inductive any : Type :=
  | AString (s : string)
  | AInt (z : Z)
  | ABool (b : bool)
  | ANil.

(** Go's [error]: [option error] is a possibly nil error value. *)
Definition error : Type := string.

(** [zapcore.Level] is an [int8]; the named levels are zap's constants. *)
Definition Level : Type := Z.
Definition DebugLevel : Level := -1.
Definition InfoLevel : Level := 0.
Definition WarnLevel : Level := 1.
Definition ErrorLevel : Level := 2.

(** Go's conversion [uint64(x)]. *)
Definition uint64 (z : Z) : Z := z mod 2 ^ 64.

(** Go's wrap-around of an [int64] sum. *)
Definition int64 (z : Z) : Z := (z + 2 ^ 63) mod 2 ^ 64 - 2 ^ 63.

(** [zapcore.TimeEncoder]: the two encoders that occur. *)
Inductive TimeEncoder : Type :=
  | EpochTimeEncoder
  | ISO8601TimeEncoder.

(** ** Go slices of [interface{}] *)
Module Go.

(** A slice value: the backing array it points into, the offset of its
    first element there, its length and its capacity.  The nil slice has
    length and capacity 0. *)
Record Slice : Type := {
  array : nat;
  off : nat;
  len : nat;
  cap : nat
}.

Definition nilSlice : Slice := {| array := 0; off := 0; len := 0; cap := 0 |}.

(** The cells of backing array [a] in the memory [m] of all arrays. *)
Definition cells (m : list (list any)) (a : nat) : list any :=
  default [] (m !! a).

(** The elements seen through a slice. *)
Definition elems (m : list (list any)) (s : Slice) : list any :=
  take (len s) (drop (off s) (cells m (array s))).

(** A slice of the running program: its window, up to its capacity, lies
    inside its backing array. *)
Definition wf (m : list (list any)) (s : Slice) : Prop :=
  (len s <= cap s /\ off s + cap s <= List.length (cells m (array s)))%nat.

(** The builtin [append(s, xs...)]: with enough spare capacity the new
    elements are written into the backing array of [s], right after its
    window; otherwise a new array receives the elements of [s] followed by
    the new ones.  (The capacity of a new array is left to the runtime; the
    new length is taken.) *)
Definition append (m : list (list any)) (s : Slice) (xs : list any)
    : Slice * list (list any) :=
  let n := List.length xs in
  if (len s + n <=? cap s)%nat
  then ({| array := array s; off := off s; len := len s + n; cap := cap s |},
        alter (list_inserts (off s + len s) xs) (array s) m)
  else ({| array := List.length m; off := 0;
           len := len s + n; cap := len s + n |},
        m ++ [elems m s ++ xs]).

End Go.

(** ** The engine *)

(** [zap.SamplingConfig]: the two thresholds of the sampler. *)
Record SamplingConfig : Type := {
  Initial : Z;
  Thereafter : Z
}.

(** [zap.Config]: the fields the wrapper assigns, and [Sampling], which the
    wrapper leaves as the production configuration sets it ([None] is the
    nil pointer: no sampling). *)
Record Config : Type := {
  cfg_Level : Level;
  cfg_Sampling : option SamplingConfig;
  cfg_EncodeTime : TimeEncoder;
  cfg_DisableStacktrace : bool;
  cfg_InitialFields : gmap string any;
  cfg_OutputPaths : list string
}.

(** [zap.NewProductionConfig()]: zap's production defaults for those
    fields; sampling is on, with [Initial] and [Thereafter] 100. *)
Definition NewProductionConfig : Config :=
  {| cfg_Level := InfoLevel;
     cfg_Sampling := Some {| Initial := 100; Thereafter := 100 |};
     cfg_EncodeTime := EpochTimeEncoder;
     cfg_DisableStacktrace := false;
     cfg_InitialFields := ∅;
     cfg_OutputPaths := ["stderr"] |}.

(** What the wrapper calls on zap.  [World] is everything outside the
    wrapper that the engine reads or writes (sinks, file system).
    [Build cfg caller] is [cfg.Build(zap.WithCaller(caller))] followed by
    [Sugar()]; [NewProduction] is [zap.NewProduction()] followed by
    [Sugar()].  The engine only reads the fields it is handed, so it
    receives their elements. *)
Class Engine : Type := {
  SugaredLogger : Type;
  World : Type;
  NewProduction : World -> (error + SugaredLogger) * World;
  Build : Config -> bool -> World -> (error + SugaredLogger) * World;
  Infow : SugaredLogger -> string -> list any -> World -> World;
  Errorw : SugaredLogger -> string -> list any -> World -> World;
  Debugw : SugaredLogger -> string -> list any -> World -> World;
  SugaredWith : SugaredLogger -> list any -> World -> SugaredLogger * World;
  SugaredSync : SugaredLogger -> World -> option error * World
}.

(** ** Variant 2: functional options (src/unnamed/part_000) *)
Module LoggerV2.
Section Facade.
Context {Ctx : Type} {Eng : Engine}.

(** [type GetTraceIDFn func(ctx context.Context) string]; [None] is nil. *)
Definition GetTraceIDFn : Type := option (Ctx -> string).

Record Logger : Type := {
  zapLogger : SugaredLogger;
  getTraceIDFn : GetTraceIDFn;
  level : Level;
  outputPaths : list string
}.

(** Heap of facades, backing arrays of field slices, outside world. *)
Record State : Type := {
  heap : list Logger;
  arrays : list (list any);
  world : World
}.

(** [type Option func(manager *Logger)]: a value of a function type is nil
    ([None]) or a function; a function of this type only reaches the struct
    behind the pointer it is given, so it is a transformer of that struct.
    Calling the nil function panics. *)
Definition Option : Type := option (Logger -> Logger).

Definition WithTraceID (fn : GetTraceIDFn) : Option :=
  Some (fun l => {| zapLogger := zapLogger l; getTraceIDFn := fn;
                    level := level l; outputPaths := outputPaths l |}).

Definition WithLevel (lvl : Level) : Option :=
  Some (fun l => {| zapLogger := zapLogger l; getTraceIDFn := getTraceIDFn l;
                    level := lvl; outputPaths := outputPaths l |}).

Definition WithOutputPaths (paths : list string) : Option :=
  Some (fun l => {| zapLogger := zapLogger l; getTraceIDFn := getTraceIDFn l;
                    level := level l; outputPaths := paths |}).

(** Lines 57-59 and 66-71 of [New]: the struct before any option runs. *)
Definition defaultLogger (l0 : SugaredLogger) : Logger :=
  {| zapLogger := l0;
     getTraceIDFn := Some (fun _ => "");
     level := InfoLevel;
     outputPaths := ["stdout"] |}.

(** Lines 73-75 of [New]: [for _, opt := range opts { opt(logger) }].  The
    loop calls every option, with no test for nil: [None] is the panic of
    the call of a nil option. *)
Fixpoint applyOptions (opts : list Option) (logger : nat)
    (h : list Logger) : option (list Logger) :=
  match opts with
  | [] => Some h
  | opt :: opts => f ← opt; applyOptions opts logger (alter f logger h)
  end.

(** Lines 77-84 of [New]: the engine configuration, which starts as
    [zap.NewProductionConfig()]. *)
Definition newConfig (service : string) (l : Logger) : Config :=
  {| cfg_Level := level l;
     cfg_Sampling := cfg_Sampling NewProductionConfig;
     cfg_EncodeTime := ISO8601TimeEncoder;
     cfg_DisableStacktrace := true;
     cfg_InitialFields := {[ "service" := AString service ]};
     cfg_OutputPaths := outputPaths l |}.

Definition setZapLogger (z : SugaredLogger) (l : Logger) : Logger :=
  {| zapLogger := z; getTraceIDFn := getTraceIDFn l;
     level := level l; outputPaths := outputPaths l |}.

(** [func New(service string, opts ...Option)], returning a pointer and an
    error.  The result is [Some (pointer, err, state)]; [None] is a panic. *)
Definition New (service : string) (opts : list Option) (st : State)
    : option (option nat * option error * State) :=
  match NewProduction (world st) with
  | (inl err, w1) =>
      Some (None, Some err,
            {| heap := heap st; arrays := arrays st; world := w1 |})
  | (inr l0, w1) =>
      let logger := List.length (heap st) in
      let h1 := heap st ++ [defaultLogger l0] in
      h2 ← applyOptions opts logger h1;
      s ← h2 !! logger;
      match Build (newConfig service s) true w1 with
      | (inl err, w2) =>
          Some (None, Some err,
                {| heap := h2; arrays := arrays st; world := w2 |})
      | (inr l, w2) =>
          Some (Some logger, None,
                {| heap := alter (setZapLogger l) logger h2;
                   arrays := arrays st; world := w2 |})
      end
  end.

(** The block repeated in [Info], [Error] and [Debug]
    (lines 97-102, 108-112, 118-122): the slice that [keyVals] holds after
    it, and the memory of arrays. *)
Definition appendTraceID (l : Logger) (ctx : Ctx) (keyVals : Go.Slice)
    (m : list (list any)) : Go.Slice * list (list any) :=
  match getTraceIDFn l with
  | Some fn =>
      let traceID := fn ctx in
      if negb (String.eqb traceID "")
      then Go.append m keyVals [AString "trace_id"; AString traceID]
      else (keyVals, m)
  | None => (keyVals, m)
  end.

Definition Info (l : nat) (ctx : Ctx) (msg : string) (keyVals : Go.Slice)
    (st : State) : option State :=
  s ← heap st !! l;
  let '(keyVals, m) := appendTraceID s ctx keyVals (arrays st) in
  Some {| heap := heap st; arrays := m;
          world := Infow (zapLogger s) msg (Go.elems m keyVals) (world st) |}.

Definition Error (l : nat) (ctx : Ctx) (msg : string) (keyVals : Go.Slice)
    (st : State) : option State :=
  s ← heap st !! l;
  let '(keyVals, m) := appendTraceID s ctx keyVals (arrays st) in
  Some {| heap := heap st; arrays := m;
          world := Errorw (zapLogger s) msg (Go.elems m keyVals) (world st) |}.

Definition Debug (l : nat) (ctx : Ctx) (msg : string) (keyVals : Go.Slice)
    (st : State) : option State :=
  s ← heap st !! l;
  let '(keyVals, m) := appendTraceID s ctx keyVals (arrays st) in
  Some {| heap := heap st; arrays := m;
          world := Debugw (zapLogger s) msg (Go.elems m keyVals) (world st) |}.

Definition With (l : nat) (keyVals : Go.Slice) (st : State)
    : option (nat * State) :=
  s ← heap st !! l;
  let '(newSugared, w) :=
    SugaredWith (zapLogger s) (Go.elems (arrays st) keyVals) (world st) in
  Some (List.length (heap st),
        {| heap := heap st ++
                   [ {| zapLogger := newSugared;
                        getTraceIDFn := getTraceIDFn s;
                        level := level s;
                        outputPaths := outputPaths s |} ];
           arrays := arrays st;
           world := w |}).

Definition Sync (l : nat) (st : State) : option (option error * State) :=
  s ← heap st !! l;
  let '(err, w) := SugaredSync (zapLogger s) (world st) in
  Some (err, {| heap := heap st; arrays := arrays st; world := w |}).

End Facade.
End LoggerV2.

(** ** Variant 1: positional arguments (src/logger.go) *)
Module LoggerV1.
Section Facade.
Context {Ctx : Type} {Eng : Engine}.

Definition GetTraceIDFn : Type := option (Ctx -> string).

Record Logger : Type := {
  zapLogger : SugaredLogger;
  getTraceID : GetTraceIDFn
}.

Record State : Type := {
  heap : list Logger;
  arrays : list (list any);
  world : World
}.

(** Lines 25-37 of [New].  The variadic [outputPaths ...string] is a slice
    that may be nil: [None] is the nil slice (no argument given),
    [Some ps] a non-nil slice, possibly of length 0. *)
Definition newConfig (service : string) (level : Level)
    (outputPaths : option (list string)) : Config :=
  {| cfg_Level := level;
     cfg_Sampling := cfg_Sampling NewProductionConfig;
     cfg_EncodeTime := ISO8601TimeEncoder;
     cfg_DisableStacktrace := true;
     cfg_InitialFields := {[ "service" := AString service ]};
     cfg_OutputPaths :=
       match outputPaths with
       | Some ps => ps
       | None => ["stdout"]
       end |}.

Definition New (service : string) (fn : GetTraceIDFn) (level : Level)
    (outputPaths : option (list string)) (st : State)
    : option nat * option error * State :=
  match Build (newConfig service level outputPaths) true (world st) with
  | (inl err, w) =>
      (None, Some err, {| heap := heap st; arrays := arrays st; world := w |})
  | (inr log, w) =>
      (Some (List.length (heap st)), None,
       {| heap := heap st ++ [ {| zapLogger := log; getTraceID := fn |} ];
          arrays := arrays st;
          world := w |})
  end.

(** The block repeated in [Info], [Error] and [Debug]
    (lines 52-57, 63-67, 73-77). *)
Definition appendTraceID (l : Logger) (ctx : Ctx) (keyVals : Go.Slice)
    (m : list (list any)) : Go.Slice * list (list any) :=
  match getTraceID l with
  | Some fn =>
      let traceID := fn ctx in
      if negb (String.eqb traceID "")
      then Go.append m keyVals [AString "trace_id"; AString traceID]
      else (keyVals, m)
  | None => (keyVals, m)
  end.

Definition Info (l : nat) (ctx : Ctx) (msg : string) (keyVals : Go.Slice)
    (st : State) : option State :=
  s ← heap st !! l;
  let '(keyVals, m) := appendTraceID s ctx keyVals (arrays st) in
  Some {| heap := heap st; arrays := m;
          world := Infow (zapLogger s) msg (Go.elems m keyVals) (world st) |}.

Definition Error (l : nat) (ctx : Ctx) (msg : string) (keyVals : Go.Slice)
    (st : State) : option State :=
  s ← heap st !! l;
  let '(keyVals, m) := appendTraceID s ctx keyVals (arrays st) in
  Some {| heap := heap st; arrays := m;
          world := Errorw (zapLogger s) msg (Go.elems m keyVals) (world st) |}.

Definition Debug (l : nat) (ctx : Ctx) (msg : string) (keyVals : Go.Slice)
    (st : State) : option State :=
  s ← heap st !! l;
  let '(keyVals, m) := appendTraceID s ctx keyVals (arrays st) in
  Some {| heap := heap st; arrays := m;
          world := Debugw (zapLogger s) msg (Go.elems m keyVals) (world st) |}.

Definition With (l : nat) (keyVals : Go.Slice) (st : State)
    : option (nat * State) :=
  s ← heap st !! l;
  let '(newSugared, w) :=
    SugaredWith (zapLogger s) (Go.elems (arrays st) keyVals) (world st) in
  Some (List.length (heap st),
        {| heap := heap st ++
                   [ {| zapLogger := newSugared;
                        getTraceID := getTraceID s |} ];
           arrays := arrays st;
           world := w |}).

Definition Sync (l : nat) (st : State) : option (option error * State) :=
  s ← heap st !! l;
  let '(err, w) := SugaredSync (zapLogger s) (world st) in
  Some (err, {| heap := heap st; arrays := arrays st; world := w |}).

End Facade.
End LoggerV1.

(** ** An executable engine *)
Module ZapModel.

(** Modelled from the spec: one emitted record of the external engine
    (go.uber.org/zap, not part of this repository): its level, message,
    the initial fields of the configuration ([service]), the persistent
    fields added by [With], and the fields of the call, in that order. *)
Record Entry : Type := {
  entry_level : Level;
  entry_msg : string;
  entry_initial : gmap string any;
  entry_persistent : list any;
  entry_fields : list any
}.

(** Modelled from the spec: the engine is external (go.uber.org/zap, not
    part of this repository).  The spec lists sampling as a non-goal, but
    the production configuration that [New] starts from switches the
    sampler of the engine on and [New] leaves it on, so the handle carries
    one: the table of counters it counts in, the number of records with
    the same level and message that pass in one second, and the period of
    the records that pass after those. *)
Record Sampler : Type := {
  sampler_counts : nat;
  sampler_first : Z;
  sampler_thereafter : Z
}.

(** Modelled from the spec: part of the sampler (see [Sampler]): one of
    its counters: the time, in nanoseconds, at which it starts again, and
    the records counted since it last did; both are 0 at the start. *)
Record Counter : Type := {
  counter_resetAt : Z;
  counter_count : Z
}.

(** Modelled from the spec: part of the sampler: a counter at the
    start. *)
Definition zeroCounter : Counter :=
  {| counter_resetAt := 0; counter_count := 0 |}.

(** Modelled from the spec: the engine handle: minimum severity, the
    configuration it was built from, persistent fields, its sinks, and its
    sampler if it has one. *)
Record Sugared : Type := {
  core_level : Level;
  core_time : TimeEncoder;
  core_nostack : bool;
  core_caller : bool;
  core_initial : gmap string any;
  core_persistent : list any;
  core_out : list string;
  core_sampler : option Sampler
}.

(** Modelled from the spec: the outside world of the engine: the sink
    paths that cannot be opened (unwritable or malformed), the sinks whose
    flush fails and with which error, every record written so far with the
    sink it went to, the time of the clock in nanoseconds, and the tables
    of counters of the samplers built so far (a table has one counter for
    each level and each of the 4096 classes of messages). *)
Record ZWorld : Type := {
  unopenable : list string;
  sync_errors : gmap string error;
  written : list (string * Entry);
  now : Z;
  counters : list (gmap (Z * Z) Counter)
}.

(** Modelled from the spec: initialization fails exactly when one of the
    configured sinks cannot be opened. *)
Definition openSinks (w : ZWorld) (paths : list string) : option error :=
  (fun p => "couldn't open sink " +:+ p)
    <$> head (filter (fun p => p ∈ unopenable w) paths).

(** Modelled from the spec: part of the sampler: the one that the engine
    builds for a sampling configuration, with a new table of counters and
    the two thresholds as unsigned numbers. *)
Definition newSampler (sc : SamplingConfig) (w : ZWorld) : Sampler :=
  {| sampler_counts := List.length (counters w);
     sampler_first := uint64 (Initial sc);
     sampler_thereafter := uint64 (Thereafter sc) |}.

(** Modelled from the spec: the engine is built from the configuration
    it is given, with no persistent field yet, unless a sink fails to open;
    an empty list of sinks opens nothing and builds.  With a sampling
    configuration the handle gets a sampler of its own. *)
Definition build (cfg : Config) (caller : bool) (w : ZWorld)
    : (error + Sugared) * ZWorld :=
  match openSinks w (cfg_OutputPaths cfg) with
  | Some err => (inl err, w)
  | None =>
      (inr {| core_level := cfg_Level cfg;
              core_time := cfg_EncodeTime cfg;
              core_nostack := cfg_DisableStacktrace cfg;
              core_caller := caller;
              core_initial := cfg_InitialFields cfg;
              core_persistent := [];
              core_out := cfg_OutputPaths cfg;
              core_sampler :=
                (fun sc => newSampler sc w) <$> cfg_Sampling cfg |},
       {| unopenable := unopenable w;
          sync_errors := sync_errors w;
          written := written w;
          now := now w;
          counters := counters w ++
                      match cfg_Sampling cfg with
                      | Some _ => [∅]
                      | None => []
                      end |})
  end.

(** Modelled from the spec: part of the sampler: the 32-bit FNV-1a hash of
    a message. *)
Definition fnv32a (s : string) : Z :=
  fold_left
    (fun hash b =>
       (Z.lxor hash (Z.of_nat (Ascii.nat_of_ascii b)) * 16777619) mod 2 ^ 32)
    (String.list_ascii_of_string s) 2166136261.

(** Modelled from the spec: part of the sampler: the class of a message
    among the 4096 that a sampler tells apart. *)
Definition class (msg : string) : Z := fnv32a msg mod 4096.

(** Modelled from the spec: part of the sampler: the key of the counter
    for a level and a message. *)
Definition key (lvl : Level) (msg : string) : Z * Z := (lvl, class msg).

(** Modelled from the spec: part of the sampler: its counter for a level
    and a message. *)
Definition counterAt (s : Sampler) (lvl : Level) (msg : string) (w : ZWorld)
    : Counter :=
  default zeroCounter
    (default ∅ (counters w !! sampler_counts s) !! key lvl msg).

(** Modelled from the spec: part of the sampler: one more record at time
    [t]: a counter whose second is over starts again at 1 for the second
    that follows [t]; otherwise it counts one more.  The result is the
    counter and its count. *)
Definition incCheckReset (t : Z) (c : Counter) : Counter * Z :=
  if t <? counter_resetAt c
  then let n := uint64 (counter_count c + 1) in
       ({| counter_resetAt := counter_resetAt c; counter_count := n |}, n)
  else ({| counter_resetAt := int64 (t + 1000000000); counter_count := 1 |},
        1).

(** Modelled from the spec: part of the sampler: the count that the next
    record at [lvl] with message [msg] gets. *)
Definition nextCount (s : Sampler) (lvl : Level) (msg : string) (w : ZWorld)
    : Z :=
  (incCheckReset (now w) (counterAt s lvl msg w)).2.

(** Modelled from the spec: part of the sampler: a record passes when its
    count is at most [first], or exceeds it by a multiple of
    [thereafter]. *)
Definition passes (s : Sampler) (n : Z) : bool :=
  negb ((sampler_first s <? n) &&
        ((sampler_thereafter s =? 0) ||
         negb ((n - sampler_first s) mod sampler_thereafter s =? 0))).

(** Modelled from the spec: part of the sampler: it counts the record and
    decides. *)
Definition check (s : Sampler) (lvl : Level) (msg : string) (w : ZWorld)
    : bool * list (gmap (Z * Z) Counter) :=
  (passes s (nextCount s lvl msg w),
   alter (insert (key lvl msg)
            (incCheckReset (now w) (counterAt s lvl msg w)).1)
     (sampler_counts s) (counters w)).

(** Modelled from the spec: a record whose severity is below the minimum
    of the handle does nothing; a record at or above it goes to the
    sampler of the handle, if it has one, and when it passes it is written
    to every configured sink. *)
Definition log (lvl : Level) (z : Sugared) (msg : string)
    (keyVals : list any) (w : ZWorld) : ZWorld :=
  if core_level z <=? lvl then
    let e := {| entry_level := lvl;
                entry_msg := msg;
                entry_initial := core_initial z;
                entry_persistent := core_persistent z;
                entry_fields := keyVals |} in
    let '(pass, cs) :=
      match core_sampler z with
      | Some s => check s lvl msg w
      | None => (true, counters w)
      end in
    {| unopenable := unopenable w;
       sync_errors := sync_errors w;
       written := written w ++
                  (if pass then map (fun p => (p, e)) (core_out z) else []);
       now := now w;
       counters := cs |}
  else w.

(** Modelled from the spec: the derived handle carries the parent's
    persistent fields followed by the supplied ones and keeps the rest; it
    counts in the parent's table. *)
Definition with_ (z : Sugared) (keyVals : list any) (w : ZWorld)
    : Sugared * ZWorld :=
  ({| core_level := core_level z;
      core_time := core_time z;
      core_nostack := core_nostack z;
      core_caller := core_caller z;
      core_initial := core_initial z;
      core_persistent := core_persistent z ++ keyVals;
      core_out := core_out z;
      core_sampler := core_sampler z |}, w).

(** Modelled from the spec: flush surfaces the error of the first sink
    of the handle that fails to flush, if any. *)
Definition sync (z : Sugared) (w : ZWorld) : option error * ZWorld :=
  (head (omap (fun p => sync_errors w !! p) (core_out z)), w).

(** Modelled from the spec: the world after [d] nanoseconds have passed:
    only the clock has moved. *)
Definition elapse (d : Z) (w : ZWorld) : ZWorld :=
  {| unopenable := unopenable w;
     sync_errors := sync_errors w;
     written := written w;
     now := now w + d;
     counters := counters w |}.

(** The model as an [Engine]: [zap.NewProduction()] builds the production
    configuration, and [Infow], [Errorw], [Debugw] log at their level. *)
Definition engine : Engine :=
  {| SugaredLogger := Sugared;
     World := ZWorld;
     NewProduction := build NewProductionConfig true;
     Build := build;
     Infow := log InfoLevel;
     Errorw := log ErrorLevel;
     Debugw := log DebugLevel;
     SugaredWith := with_;
     SugaredSync := sync |}.

End ZapModel.

(** ** The three log calls, uniformly *)

Inductive Call : Type := CInfo | CError | CDebug.


(** The engine method a call delegates to. *)
Definition engineCall {Eng : Engine} (c : Call)
    : SugaredLogger -> string -> list any -> World -> World :=
  match c with
  | CInfo => Infow
  | CError => Errorw
  | CDebug => Debugw
  end.

Module V2.
Section Calls.
Context {Ctx : Type} {Eng : Engine}.

Definition call (c : Call)
    : nat -> Ctx -> string -> Go.Slice ->
      LoggerV2.State (Ctx:=Ctx) -> option LoggerV2.State :=
  match c with
  | CInfo => LoggerV2.Info
  | CError => LoggerV2.Error
  | CDebug => LoggerV2.Debug
  end.

(** The state after the engine method of call [c] ran on the handle of the
    facade [s] with the elements [fields], the arrays being [m]: the heap
    as it was, the world as the engine left it. *)
Definition delegated (c : Call) (s : LoggerV2.Logger (Ctx:=Ctx)) (msg : string)
    (fields : list any) (m : list (list any))
    (st : LoggerV2.State (Ctx:=Ctx)) : LoggerV2.State (Ctx:=Ctx) :=
  {| LoggerV2.heap := LoggerV2.heap st;
     LoggerV2.arrays := m;
     LoggerV2.world :=
       engineCall c (LoggerV2.zapLogger s) msg fields (LoggerV2.world st) |}.

(** The options called from left to right on a struct; [None] when one of
    them is nil. *)
Fixpoint applyAll (opts : list (LoggerV2.Option (Ctx:=Ctx)))
    (s : LoggerV2.Logger (Ctx:=Ctx)) : option (LoggerV2.Logger (Ctx:=Ctx)) :=
  match opts with
  | [] => Some s
  | opt :: opts => f ← opt; applyAll opts (f s)
  end.

(** The struct the option loop of [New] leaves behind the pointer: the
    options called from left to right on the defaults. *)
Definition resolve (opts : list (LoggerV2.Option (Ctx:=Ctx)))
    (l0 : SugaredLogger) : option (LoggerV2.Logger (Ctx:=Ctx)) :=
  applyAll opts (LoggerV2.defaultLogger l0).

(** Options built by a constructor other than [WithLevel],
    [WithOutputPaths], [WithTraceID] respectively. *)
Definition notWithLevel (o : LoggerV2.Option (Ctx:=Ctx)) : Prop :=
  (exists fn, o = LoggerV2.WithTraceID fn) \/
  (exists ps, o = LoggerV2.WithOutputPaths ps).

Definition notWithOutputPaths (o : LoggerV2.Option (Ctx:=Ctx)) : Prop :=
  (exists fn, o = LoggerV2.WithTraceID fn) \/
  (exists lvl, o = LoggerV2.WithLevel lvl).

Definition notWithTraceID (o : LoggerV2.Option (Ctx:=Ctx)) : Prop :=
  (exists lvl, o = LoggerV2.WithLevel lvl) \/
  (exists ps, o = LoggerV2.WithOutputPaths ps).

(** The outcome of [New] once the option loop has left [s] behind the
    pointer and the engine has answered the build with [r]. *)
Definition newOutcome (st : LoggerV2.State (Ctx:=Ctx)) (s : LoggerV2.Logger)
    (r : (error + SugaredLogger) * World)
    : option nat * option error * LoggerV2.State :=
  match r with
  | (inl err, w2) =>
      (None, Some err,
       {| LoggerV2.heap := LoggerV2.heap st ++ [s];
          LoggerV2.arrays := LoggerV2.arrays st;
          LoggerV2.world := w2 |})
  | (inr z, w2) =>
      (Some (List.length (LoggerV2.heap st)), None,
       {| LoggerV2.heap := LoggerV2.heap st ++ [LoggerV2.setZapLogger z s];
          LoggerV2.arrays := LoggerV2.arrays st;
          LoggerV2.world := w2 |})
  end.

(** The error of the engine initialization that fails during [New], if one
    does: [zap.NewProduction()] first, then the build of the resolved
    configuration (which is not reached when an option is nil). *)
Definition initError (service : string)
    (opts : list (LoggerV2.Option (Ctx:=Ctx))) (st : LoggerV2.State (Ctx:=Ctx))
    : option error :=
  match NewProduction (LoggerV2.world st) with
  | (inl err, _) => Some err
  | (inr l0, w1) =>
      s ← resolve opts l0;
      match Build (LoggerV2.newConfig service s) true w1 with
      | (inl err, _) => Some err
      | (inr _, _) => None
      end
  end.

End Calls.
End V2.

Module V1.
Section Calls.
Context {Ctx : Type} {Eng : Engine}.

Definition call (c : Call)
    : nat -> Ctx -> string -> Go.Slice ->
      LoggerV1.State (Ctx:=Ctx) -> option LoggerV1.State :=
  match c with
  | CInfo => LoggerV1.Info
  | CError => LoggerV1.Error
  | CDebug => LoggerV1.Debug
  end.

Definition delegated (c : Call) (s : LoggerV1.Logger (Ctx:=Ctx)) (msg : string)
    (fields : list any) (m : list (list any))
    (st : LoggerV1.State (Ctx:=Ctx)) : LoggerV1.State (Ctx:=Ctx) :=
  {| LoggerV1.heap := LoggerV1.heap st;
     LoggerV1.arrays := m;
     LoggerV1.world :=
       engineCall c (LoggerV1.zapLogger s) msg fields (LoggerV1.world st) |}.

(** The error of the engine initialization during [New], if it fails. *)
Definition initError (service : string) (level : Level)
    (outputPaths : option (list string)) (st : LoggerV1.State (Ctx:=Ctx))
    : option error :=
  match Build (LoggerV1.newConfig service level outputPaths) true
          (LoggerV1.world st) with
  | (inl err, _) => Some err
  | (inr _, _) => None
  end.

End Calls.
End V1.

(** ** Concrete inputs *)
Module Examples.

(** A context is a bag of request-scoped values. *)
Definition Ctx : Type := gmap string string.

Definition traceFn (ctx : Ctx) : string := default "" (ctx !! "trace").

Definition ctxTraced : Ctx := {[ "trace" := "abc123" ]}.
Definition ctxPlain : Ctx := ∅.

(** A world with one sink that cannot be opened, a standard output whose
    flush fails, nothing written yet and no engine built yet. *)
Definition w0 : ZapModel.ZWorld :=
  {| ZapModel.unopenable := ["/proc/denied.log"];
     ZapModel.sync_errors := {[ "stdout" := "sync /dev/stdout: invalid argument" ]};
     ZapModel.written := [];
     ZapModel.now := 1700000000000000000;
     ZapModel.counters := [] |}.

(** The world [w] with the tables of counters [cs]. *)
Definition withCounters (cs : list (gmap (Z * Z) ZapModel.Counter))
    (w : ZapModel.ZWorld) : ZapModel.ZWorld :=
  {| ZapModel.unopenable := ZapModel.unopenable w;
     ZapModel.sync_errors := ZapModel.sync_errors w;
     ZapModel.written := ZapModel.written w;
     ZapModel.now := ZapModel.now w;
     ZapModel.counters := cs |}.

(** [w0] after the one build of the positional [New], and after the two
    builds of the options [New]: each build has added a table without
    counts. *)
Definition wNew1 : ZapModel.ZWorld := withCounters [∅] w0.
Definition wNew2 : ZapModel.ZWorld := withCounters [∅; ∅] w0.

(** The sampler of the production configuration that counts in table [i]. *)
Definition sampler (i : nat) : option ZapModel.Sampler :=
  Some {| ZapModel.sampler_counts := i;
          ZapModel.sampler_first := 100;
          ZapModel.sampler_thereafter := 100 |}.

(** Four backing arrays: the arguments ["k", 1] of a call, three fields of
    which the first key is an integer and the last has no value, a caller's
    array of four cells, and the arguments ["component", "x"]. *)
Definition mem0 : list (list any) :=
  [ [AString "k"; AInt 1];
    [AInt 7; ABool true; AString "dangling"];
    [AString "a"; AInt 1; AString "b"; AInt 2];
    [AString "component"; AString "x"] ].

(** The slice a call [Info(ctx, msg, "k", 1)] passes. *)
Definition kv : Go.Slice :=
  {| Go.array := 0; Go.off := 0; Go.len := 2; Go.cap := 2 |}.

(** A field sequence of odd length whose first key is not a string. *)
Definition oddFields : Go.Slice :=
  {| Go.array := 1; Go.off := 0; Go.len := 3; Go.cap := 3 |}.

(** The first two cells of the caller's array, passed as [base[:2]...]:
    two cells of spare capacity follow the window. *)
Definition basePrefix : Go.Slice :=
  {| Go.array := 2; Go.off := 0; Go.len := 2; Go.cap := 4 |}.

(** The whole of the caller's array, [base]. *)
Definition base : Go.Slice :=
  {| Go.array := 2; Go.off := 0; Go.len := 4; Go.cap := 4 |}.

Definition component : Go.Slice :=
  {| Go.array := 3; Go.off := 0; Go.len := 2; Go.cap := 2 |}.

Definition st2 : LoggerV2.State :=
  @LoggerV2.Build_State Ctx ZapModel.engine [] mem0 w0.

Definition st1 : LoggerV1.State :=
  @LoggerV1.Build_State Ctx ZapModel.engine [] mem0 w0.

(** The facade of the scenario of the spec:
    trace function, severity debug, one memory sink. *)
Definition scenarioOpts
    : list (LoggerV2.Option (Ctx:=Ctx) (Eng:=ZapModel.engine)) :=
  [ LoggerV2.WithTraceID (Some traceFn);
    LoggerV2.WithLevel DebugLevel;
    LoggerV2.WithOutputPaths ["mem://buf"] ].

(** The handle the engine builds for the scenario, and the facade and
    state that [New "svc" scenarioOpts] leaves. *)
Definition scenarioHandle : ZapModel.Sugared :=
  {| ZapModel.core_level := DebugLevel;
     ZapModel.core_time := ISO8601TimeEncoder;
     ZapModel.core_nostack := true;
     ZapModel.core_caller := true;
     ZapModel.core_initial := {[ "service" := AString "svc" ]};
     ZapModel.core_persistent := [];
     ZapModel.core_out := ["mem://buf"];
     ZapModel.core_sampler := sampler 1 |}.

Definition facade2 : LoggerV2.Logger :=
  @LoggerV2.Build_Logger Ctx ZapModel.engine
    scenarioHandle (Some traceFn) DebugLevel ["mem://buf"].

Definition stFacade2 : LoggerV2.State :=
  @LoggerV2.Build_State Ctx ZapModel.engine [facade2] mem0 wNew2.

(** The facade and state that [New "svc"] without options leaves. *)
Definition defaultHandle : ZapModel.Sugared :=
  {| ZapModel.core_level := InfoLevel;
     ZapModel.core_time := ISO8601TimeEncoder;
     ZapModel.core_nostack := true;
     ZapModel.core_caller := true;
     ZapModel.core_initial := {[ "service" := AString "svc" ]};
     ZapModel.core_persistent := [];
     ZapModel.core_out := ["stdout"];
     ZapModel.core_sampler := sampler 1 |}.

Definition defaultFacade2 : LoggerV2.Logger :=
  @LoggerV2.Build_Logger Ctx ZapModel.engine
    defaultHandle (Some (fun _ => "")) InfoLevel ["stdout"].

Definition stDefault2 : LoggerV2.State :=
  @LoggerV2.Build_State Ctx ZapModel.engine [defaultFacade2] mem0 wNew2.

(** The facade and state that [New] leaves when the sink list given is
    empty; the handle counts in table [i]. *)
Definition noSinkHandle (i : nat) : ZapModel.Sugared :=
  {| ZapModel.core_level := InfoLevel;
     ZapModel.core_time := ISO8601TimeEncoder;
     ZapModel.core_nostack := true;
     ZapModel.core_caller := true;
     ZapModel.core_initial := {[ "service" := AString "svc" ]};
     ZapModel.core_persistent := [];
     ZapModel.core_out := [];
     ZapModel.core_sampler := sampler i |}.

Definition noSinkFacade2 : LoggerV2.Logger :=
  @LoggerV2.Build_Logger Ctx ZapModel.engine
    (noSinkHandle 1) (Some (fun _ => "")) InfoLevel [].

Definition stNoSink2 : LoggerV2.State :=
  @LoggerV2.Build_State Ctx ZapModel.engine [noSinkFacade2] mem0 wNew2.

Definition stNoSink1 : LoggerV1.State :=
  @LoggerV1.Build_State Ctx ZapModel.engine
    [@LoggerV1.Build_Logger Ctx ZapModel.engine (noSinkHandle 0) None]
    mem0 wNew1.

(** The handle of [zap.NewProduction()] in [w0]. *)
Definition productionHandle : ZapModel.Sugared :=
  {| ZapModel.core_level := InfoLevel;
     ZapModel.core_time := EpochTimeEncoder;
     ZapModel.core_nostack := false;
     ZapModel.core_caller := true;
     ZapModel.core_initial := ∅;
     ZapModel.core_persistent := [];
     ZapModel.core_out := ["stderr"];
     ZapModel.core_sampler := sampler 0 |}.

(** Three options set the level; one later option sets something else. *)
Definition manyLevels
    : list (LoggerV2.Option (Ctx:=Ctx) (Eng:=ZapModel.engine)) :=
  [ LoggerV2.WithLevel ErrorLevel;
    LoggerV2.WithLevel InfoLevel;
    LoggerV2.WithLevel DebugLevel;
    LoggerV2.WithOutputPaths ["mem://buf"] ].

(** An option list whose sink cannot be opened in [w0]. *)
Definition deniedOpts
    : list (LoggerV2.Option (Ctx:=Ctx) (Eng:=ZapModel.engine)) :=
  [ LoggerV2.WithOutputPaths ["/proc/denied.log"] ].

(** An option list with a nil option after a level option. *)
Definition nilOpts
    : list (LoggerV2.Option (Ctx:=Ctx) (Eng:=ZapModel.engine)) :=
  [ LoggerV2.WithLevel DebugLevel; None ].

(** An option list that supplies an empty sink list. *)
Definition noSinkOpts
    : list (LoggerV2.Option (Ctx:=Ctx) (Eng:=ZapModel.engine)) :=
  [ LoggerV2.WithOutputPaths [] ].

(** The arrays after a traced call on [kv]: a fifth array holds the
    extended sequence. *)
Definition memTraced : list (list any) :=
  mem0 ++ [[AString "k"; AInt 1; AString "trace_id"; AString "abc123"]].

(** The arrays after a traced call on [basePrefix]: the pair went into
    the spare capacity, over the last two cells of the caller's array. *)
Definition memOverwritten : list (list any) :=
  [ [AString "k"; AInt 1];
    [AInt 7; ABool true; AString "dangling"];
    [AString "a"; AInt 1; AString "trace_id"; AString "abc123"];
    [AString "component"; AString "x"] ].

(** The run of [TestLogger] (the test of the positional variant): the
    arrays of the four argument lists, the calls in order, and what the
    test looks at afterwards: the error of [Sync] and the records in the
    sink. *)
Definition memTest : list (list any) :=
  [ [AString "userID"; AInt 1234];
    [AString "errCode"; AInt 500];
    [AString "component"; AString "signup-flow"];
    [AString "extra"; ABool true] ].

Definition args (a : nat) : Go.Slice :=
  {| Go.array := a; Go.off := 0; Go.len := 2; Go.cap := 2 |}.

Definition testLogger : option (option error * list (string * ZapModel.Entry)) :=
  let '(p, _, st) :=
    LoggerV1.New "test-service" (Some (fun _ : Ctx => "test-trace-id"))
      DebugLevel (Some ["test://whatever"])
      (@LoggerV1.Build_State Ctx ZapModel.engine [] memTest w0) in
  l ← p;
  st ← LoggerV1.Info l ctxPlain "Info message" (args 0) st;
  st ← LoggerV1.Error l ctxPlain "Error message" (args 1) st;
  '(sub, st) ← LoggerV1.With l (args 2) st;
  st ← LoggerV1.Debug sub ctxPlain "Debugging message" (args 3) st;
  '(err, st) ← LoggerV1.Sync l st;
  Some (err,
        ZapModel.written
          (LoggerV1.world (Ctx:=Ctx) (Eng:=ZapModel.engine) st)).

(** A record of that run. *)
Definition testEntry (lvl : Level) (msg : string) (persistent fields : list any)
    : string * ZapModel.Entry :=
  ("test://whatever",
   {| ZapModel.entry_level := lvl;
      ZapModel.entry_msg := msg;
      ZapModel.entry_initial := {[ "service" := AString "test-service" ]};
      ZapModel.entry_persistent := persistent;
      ZapModel.entry_fields :=
        fields ++ [AString "trace_id"; AString "test-trace-id"] |}).

End Examples.

(** ** Sentences of the claims, as they are worded *)
Module Stated.
Section Stated.
Context {Ctx : Type} {Eng : Engine}.

(** Section 4.1: a failure of the engine to initialize is the only failure
    mode of construction: [New] returns a pointer and the error of the
    engine initialization, if one failed. *)
Definition constructionReturns (service : string)
    (opts : list (LoggerV2.Option (Ctx:=Ctx)))
    (st : LoggerV2.State (Ctx:=Ctx)) : Prop :=
  exists p st',
    LoggerV2.New service opts st
    = Some (p, V2.initError service opts st, st').

(** Section 3: the output-sink list is non-empty after initialization;
    read on the facade that [New] returns, for both variants. *)
Definition sinksNonEmpty2 (service : string)
    (opts : list (LoggerV2.Option (Ctx:=Ctx)))
    (st : LoggerV2.State (Ctx:=Ctx)) : Prop :=
  forall l st' s,
    LoggerV2.New service opts st = Some (Some l, None, st') ->
    LoggerV2.heap st' !! l = Some s ->
    LoggerV2.outputPaths s <> [].

Definition sinksNonEmpty1 (service : string)
    (fn : LoggerV1.GetTraceIDFn (Ctx:=Ctx)) (level : Level)
    (outputPaths : option (list string)) (st : LoggerV1.State (Ctx:=Ctx))
    : Prop :=
  forall l st',
    LoggerV1.New service fn level outputPaths st = (Some l, None, st') ->
    cfg_OutputPaths (LoggerV1.newConfig service level outputPaths) <> [].

(** The frame claim on log calls: the facade's own state is unchanged and
    only a call-local copy of the field sequence is extended, so that every
    backing array that existed before the call still has the cells it
    had. *)
Definition fieldsCallLocal (c : Call) (l : nat) (ctx : Ctx) (msg : string)
    (keyVals : Go.Slice) (st : LoggerV2.State (Ctx:=Ctx)) : Prop :=
  forall st',
    V2.call c l ctx msg keyVals st = Some st' ->
    LoggerV2.heap st' = LoggerV2.heap st /\
    forall a cells,
      LoggerV2.arrays st !! a = Some cells ->
      LoggerV2.arrays st' !! a = Some cells.


End Stated.


End Stated.

(** * Callers, the test sink, options as data *)

(** ** Calls with literal variadic arguments *)
Module Variadic.

(** A call [f(a, b)]: without arguments the variadic parameter is the nil
    slice; otherwise it is a new slice over a new array that holds exactly
    the arguments. *)
Definition literal (m : list (list any)) (xs : list any)
    : Go.Slice * list (list any) :=
  match xs with
  | [] => (Go.nilSlice, m)
  | _ :: _ =>
      ({| Go.array := List.length m; Go.off := 0;
          Go.len := List.length xs; Go.cap := List.length xs |},
       m ++ [xs])
  end.

End Variadic.

(** How a [main] ends: by a panic, by [os.Exit] (or [log.Fatalf]) with what
    it printed, or by returning with what it printed. *)
Inductive Outcome (S : Type) : Type :=
  | Panicked
  | Exited (code : Z) (printed : list string) (st : S)
  | Returned (printed : list string) (st : S).
Arguments Panicked {S}.
Arguments Exited {S} code printed st.
Arguments Returned {S} printed st.

Definition newline : string := String (Ascii.ascii_of_nat 10) "".

(** The engine calls that steps 3 to 5 of the two usage examples make on
    the handle [z] of their facade, in order, and the world they leave:
    the trace function of the examples answers [fake-trace-id] for every
    context. *)
Definition exampleCalls {Eng : Engine} (z : SugaredLogger) (w : World)
    : World :=
  let trace := [AString "trace_id"; AString "fake-trace-id"] in
  let w :=
    Infow z "Hello from logger" ([AString "key"; AString "value"] ++ trace) w in
  let w :=
    Errorw z "An error occurred" ([AString "code"; AInt 500] ++ trace) w in
  let sub := SugaredWith z [AString "component"; AString "signup"] w in
  let w :=
    Debugw sub.1 "Debug details here"
      ([AString "anotherField"; ABool true] ++ trace) sub.2 in
  (SugaredSync z w).2.

(** ** The usage example of the functional-options variant
    (src/logger.go, lines 263-290) *)
Module Readme2.
Section Main.
Context {Ctx : Type} {Eng : Engine}.

Definition traceFn : Ctx -> string := fun _ => "fake-trace-id".

Definition withArrays (m : list (list any)) (st : LoggerV2.State (Ctx:=Ctx))
    : LoggerV2.State (Ctx:=Ctx) :=
  {| LoggerV2.heap := LoggerV2.heap st;
     LoggerV2.arrays := m;
     LoggerV2.world := LoggerV2.world st |}.

(** Steps 3 to 5 of [main] (lines 279-289).  [log] is the pointer that
    [New] returned; a method call through nil panics. *)
Definition steps (log : option nat) (ctx : Ctx) (st : LoggerV2.State (Ctx:=Ctx))
    : option (list string * LoggerV2.State (Ctx:=Ctx)) :=
  l ← log;
  let '(kv, m) :=
    Variadic.literal (LoggerV2.arrays st) [AString "key"; AString "value"] in
  st ← LoggerV2.Info l ctx "Hello from logger" kv (withArrays m st);
  let '(kv, m) :=
    Variadic.literal (LoggerV2.arrays st) [AString "code"; AInt 500] in
  st ← LoggerV2.Error l ctx "An error occurred" kv (withArrays m st);
  let '(kv, m) :=
    Variadic.literal (LoggerV2.arrays st)
      [AString "component"; AString "signup"] in
  '(subLogger, st) ← LoggerV2.With l kv (withArrays m st);
  let '(kv, m) :=
    Variadic.literal (LoggerV2.arrays st)
      [AString "anotherField"; ABool true] in
  st ← LoggerV2.Debug subLogger ctx "Debug details here" kv (withArrays m st);
  '(err, st) ← LoggerV2.Sync l st;
  Some (match err with
        | Some e => ["failed to sync logs: " +:+ e +:+ newline]
        | None => []
        end, st).

(** [func main()].  [ctx] is [context.Background()]. *)
Definition main (ctx : Ctx) (st : LoggerV2.State (Ctx:=Ctx))
    : Outcome (LoggerV2.State (Ctx:=Ctx)) :=
  match LoggerV2.New "myServiceName" [LoggerV2.WithTraceID (Some traceFn)] st
  with
  | None => Panicked
  | Some (log, Some err, st) =>
      let '(kv, m) :=
        Variadic.literal (LoggerV2.arrays st) [AString "err"; AString err] in
      match
        l ← log;
        LoggerV2.Error l ctx "failed to create logger" kv (withArrays m st)
      with
      | None => Panicked
      | Some st => Exited 1 [] st
      end
  | Some (log, None, st) =>
      match steps log ctx st with
      | None => Panicked
      | Some (printed, st) => Returned printed st
      end
  end.

End Main.
End Readme2.

(** ** The usage example of the positional variant
    (src/README.md, lines 63-96) *)
Module Readme1.
Section Main.
Context {Ctx : Type} {Eng : Engine}.

Definition traceFn : Ctx -> string := fun _ => "fake-trace-id".

Definition withArrays (m : list (list any)) (st : LoggerV1.State (Ctx:=Ctx))
    : LoggerV1.State (Ctx:=Ctx) :=
  {| LoggerV1.heap := LoggerV1.heap st;
     LoggerV1.arrays := m;
     LoggerV1.world := LoggerV1.world st |}.

(** Steps 3 to 5 of [main] (lines 85-95). *)
Definition steps (l : option nat) (ctx : Ctx) (st : LoggerV1.State (Ctx:=Ctx))
    : option (list string * LoggerV1.State (Ctx:=Ctx)) :=
  l ← l;
  let '(kv, m) :=
    Variadic.literal (LoggerV1.arrays st) [AString "key"; AString "value"] in
  st ← LoggerV1.Info l ctx "Hello from logger" kv (withArrays m st);
  let '(kv, m) :=
    Variadic.literal (LoggerV1.arrays st) [AString "code"; AInt 500] in
  st ← LoggerV1.Error l ctx "An error occurred" kv (withArrays m st);
  let '(kv, m) :=
    Variadic.literal (LoggerV1.arrays st)
      [AString "component"; AString "signup"] in
  '(subLogger, st) ← LoggerV1.With l kv (withArrays m st);
  let '(kv, m) :=
    Variadic.literal (LoggerV1.arrays st)
      [AString "anotherField"; ABool true] in
  st ← LoggerV1.Debug subLogger ctx "Debug details here" kv (withArrays m st);
  '(err, st) ← LoggerV1.Sync l st;
  Some (match err with
        | Some e => ["failed to sync logs: " +:+ e +:+ newline]
        | None => []
        end, st).

(** [func main()]: on a failed construction [log.Fatalf] prints and exits
    with status 1. *)
Definition main (ctx : Ctx) (st : LoggerV1.State (Ctx:=Ctx))
    : Outcome (LoggerV1.State (Ctx:=Ctx)) :=
  match LoggerV1.New "myServiceName" (Some traceFn) InfoLevel None st with
  | (_, Some err, st) => Exited 1 ["failed to create logger: " +:+ err] st
  | (l, None, st) =>
      match steps l ctx st with
      | None => Panicked
      | Some (printed, st) => Returned printed st
      end
  end.

End Main.
End Readme1.

(** ** Programs over a facade heap *)
Module Run2.
Section Ops.
Context {Ctx : Type} {Eng : Engine}.

(** One call of the package's API. *)
Inductive Op : Type :=
  | ONew (service : string) (opts : list (LoggerV2.Option (Ctx:=Ctx)))
  | OCall (c : Call) (l : nat) (ctx : Ctx) (msg : string) (keyVals : Go.Slice)
  | OWith (l : nat) (keyVals : Go.Slice)
  | OSync (l : nat).

(** The state after one call, results dropped; [None] is a panic. *)
Definition step (o : Op) (st : LoggerV2.State (Ctx:=Ctx))
    : option (LoggerV2.State (Ctx:=Ctx)) :=
  match o with
  | ONew service opts => snd <$> LoggerV2.New service opts st
  | OCall c l ctx msg keyVals => V2.call c l ctx msg keyVals st
  | OWith l keyVals => snd <$> LoggerV2.With l keyVals st
  | OSync l => snd <$> LoggerV2.Sync l st
  end.

Fixpoint run (ops : list Op) (st : LoggerV2.State (Ctx:=Ctx))
    : option (LoggerV2.State (Ctx:=Ctx)) :=
  match ops with
  | [] => Some st
  | o :: ops => st' ← step o st; run ops st'
  end.

(** [opt(l)] on a facade that already exists: [Option] is an exported
    function type, so a caller can run an option on a pointer it holds.
    [None] is the panic of the call of a nil option. *)
Definition invoke (opt : LoggerV2.Option (Ctx:=Ctx)) (l : nat)
    (st : LoggerV2.State (Ctx:=Ctx)) : option (LoggerV2.State (Ctx:=Ctx)) :=
  f ← opt;
  Some {| LoggerV2.heap := alter f l (LoggerV2.heap st);
          LoggerV2.arrays := LoggerV2.arrays st;
          LoggerV2.world := LoggerV2.world st |}.

End Ops.
End Run2.

Module Run1.
Section Ops.
Context {Ctx : Type} {Eng : Engine}.

Inductive Op : Type :=
  | ONew (service : string) (fn : LoggerV1.GetTraceIDFn (Ctx:=Ctx))
         (level : Level) (outputPaths : option (list string))
  | OCall (c : Call) (l : nat) (ctx : Ctx) (msg : string) (keyVals : Go.Slice)
  | OWith (l : nat) (keyVals : Go.Slice)
  | OSync (l : nat).

Definition step (o : Op) (st : LoggerV1.State (Ctx:=Ctx))
    : option (LoggerV1.State (Ctx:=Ctx)) :=
  match o with
  | ONew service fn level outputPaths =>
      Some (LoggerV1.New service fn level outputPaths st).2
  | OCall c l ctx msg keyVals => V1.call c l ctx msg keyVals st
  | OWith l keyVals => snd <$> LoggerV1.With l keyVals st
  | OSync l => snd <$> LoggerV1.Sync l st
  end.

Fixpoint run (ops : list Op) (st : LoggerV1.State (Ctx:=Ctx))
    : option (LoggerV1.State (Ctx:=Ctx)) :=
  match ops with
  | [] => Some st
  | o :: ops => st' ← step o st; run ops st'
  end.

End Ops.
End Run1.

(** ** Programs in the engine model, with the time between the calls *)
Module Timed.
Section Ops.
Context {Ctx : Type}.

(** A call of the package's API, or [d] nanoseconds that pass. *)
Inductive Op2 : Type :=
  | Call2 (o : Run2.Op (Ctx:=Ctx) (Eng:=ZapModel.engine))
  | Wait2 (d : Z).

Definition step2 (o : Op2)
    (st : LoggerV2.State (Ctx:=Ctx) (Eng:=ZapModel.engine))
    : option (LoggerV2.State (Ctx:=Ctx) (Eng:=ZapModel.engine)) :=
  match o with
  | Call2 o => Run2.step o st
  | Wait2 d =>
      Some {| LoggerV2.heap := LoggerV2.heap st;
              LoggerV2.arrays := LoggerV2.arrays st;
              LoggerV2.world := ZapModel.elapse d (LoggerV2.world st) |}
  end.





End Ops.
End Timed.

(** ** Options as data *)
Module Options2.
Section Specs.
Context {Ctx : Type} {Eng : Engine}.

(** The three constructors of the package. *)
Inductive OptionSpec : Type :=
  | STraceID (fn : LoggerV2.GetTraceIDFn (Ctx:=Ctx))
  | SLevel (lvl : Level)
  | SOutputPaths (paths : list string).

Definition toOption (o : OptionSpec) : LoggerV2.Option (Ctx:=Ctx) :=
  match o with
  | STraceID fn => LoggerV2.WithTraceID fn
  | SLevel lvl => LoggerV2.WithLevel lvl
  | SOutputPaths paths => LoggerV2.WithOutputPaths paths
  end.

(** The arguments of the options of each kind, in order. *)
Definition traceIDs (os : list OptionSpec)
    : list (LoggerV2.GetTraceIDFn (Ctx:=Ctx)) :=
  omap (fun o => match o with STraceID fn => Some fn | _ => None end) os.

Definition levels (os : list OptionSpec) : list Level :=
  omap (fun o => match o with SLevel lvl => Some lvl | _ => None end) os.

Definition outputPathss (os : list OptionSpec) : list (list string) :=
  omap (fun o => match o with SOutputPaths ps => Some ps | _ => None end) os.

End Specs.
End Options2.

(** ** The two variants side by side *)
Module Corr.
Section Corr.
Context {Ctx : Type} {Eng : Engine}.

(** A facade of the positional variant and one of the options variant with
    the same engine handle and the same trace function. *)
Definition sameFacade (s1 : LoggerV1.Logger (Ctx:=Ctx))
    (s2 : LoggerV2.Logger (Ctx:=Ctx)) : Prop :=
  LoggerV1.zapLogger s1 = LoggerV2.zapLogger s2 /\
  LoggerV1.getTraceID s1 = LoggerV2.getTraceIDFn s2.

(** Two states that agree outside the facade heaps. *)
Definition sameOutside (st1 : LoggerV1.State (Ctx:=Ctx))
    (st2 : LoggerV2.State (Ctx:=Ctx)) : Prop :=
  LoggerV1.arrays st1 = LoggerV2.arrays st2 /\
  LoggerV1.world st1 = LoggerV2.world st2.

End Corr.
End Corr.

(** ** The sink of the test (src/logger.go, lines 110-128) *)
Module MemorySink.

(** [type memorySink struct { logs strings.Builder }]: the bytes written so
    far. *)
Record memorySink : Type := {
  logs : list Byte.byte
}.

(** [func (m *memorySink) Write(p []byte) (n int, err error)]:
    [strings.Builder.Write] appends [p] and returns its length and nil. *)
Definition Write (m : memorySink) (p : list Byte.byte)
    : memorySink * (nat * option error) :=
  ({| logs := logs m ++ p |}, (List.length p, None)).

(** [func (m *memorySink) Sync() error] and [Close() error]: no-ops. *)
Definition Sync (m : memorySink) : memorySink * option error := (m, None).
Definition Close (m : memorySink) : memorySink * option error := (m, None).

(** What a user of the sink can do to it. *)
Inductive Use : Type :=
  | UWrite (p : list Byte.byte)
  | USync
  | UClose.

Definition use (m : memorySink) (u : Use) : memorySink :=
  match u with
  | UWrite p => (Write m p).1
  | USync => (Sync m).1
  | UClose => (Close m).1
  end.

(** The chunk a use hands to [Write], if it is one. *)
Definition chunk (u : Use) : list Byte.byte :=
  match u with
  | UWrite p => p
  | _ => []
  end.

End MemorySink.

(** ** More concrete inputs *)
Module Examples2.
Import Examples.

(** Options that end with a nil trace function. *)
Definition nilTraceOpts
    : list (LoggerV2.Option (Ctx:=Ctx) (Eng:=ZapModel.engine)) :=
  [ LoggerV2.WithTraceID None;
    LoggerV2.WithLevel DebugLevel;
    LoggerV2.WithOutputPaths ["mem://buf"] ].

Definition nilTraceFacade : LoggerV2.Logger :=
  @LoggerV2.Build_Logger Ctx ZapModel.engine
    scenarioHandle None DebugLevel ["mem://buf"].

Definition stNilTrace : LoggerV2.State :=
  @LoggerV2.Build_State Ctx ZapModel.engine [nilTraceFacade] mem0 wNew2.

(** The facade and state that [New "svc"] leaves with the trace function
    as only option: level Info, standard output. *)
Definition tracedOpts
    : list (LoggerV2.Option (Ctx:=Ctx) (Eng:=ZapModel.engine)) :=
  [ LoggerV2.WithTraceID (Some traceFn) ].

Definition tracedFacade : LoggerV2.Logger :=
  @LoggerV2.Build_Logger Ctx ZapModel.engine
    defaultHandle (Some traceFn) InfoLevel ["stdout"].

Definition stTraced : LoggerV2.State :=
  @LoggerV2.Build_State Ctx ZapModel.engine [tracedFacade] mem0 wNew2.

(** A hundred Info calls with the same message on that facade, within one
    second, and the state they leave. *)
Definition hundredCalls : list (Run2.Op (Ctx:=Ctx) (Eng:=ZapModel.engine)) :=
  replicate 100 (Run2.OCall CInfo 0%nat ctxPlain "hello" kv).

Definition stBusy : LoggerV2.State :=
  default stTraced (Run2.run hundredCalls stTraced).

(** The same state one second later. *)
Definition stLater : LoggerV2.State :=
  default stBusy (Timed.step2 (Timed.Wait2 1000000000) stBusy).

(** A world in which standard output cannot be opened, and a program start
    in it for each variant. *)
Definition wClosed : ZapModel.ZWorld :=
  {| ZapModel.unopenable := ["stdout"];
     ZapModel.sync_errors := ∅;
     ZapModel.written := [];
     ZapModel.now := 1700000000000000000;
     ZapModel.counters := [] |}.

Definition start2 (w : ZapModel.ZWorld) : LoggerV2.State :=
  @LoggerV2.Build_State Ctx ZapModel.engine [] [] w.

Definition start1 (w : ZapModel.ZWorld) : LoggerV1.State :=
  @LoggerV1.Build_State Ctx ZapModel.engine [] [] w.

(** A short program on the state that holds the default facade. *)
Definition program : list (Run2.Op (Ctx:=Ctx) (Eng:=ZapModel.engine)) :=
  [ Run2.ONew "svc" scenarioOpts;
    Run2.OCall CInfo 1%nat ctxTraced "hello" basePrefix;
    Run2.OWith 0%nat component;
    Run2.OCall CDebug 2%nat ctxPlain "detail" kv;
    Run2.OSync 1%nat ].

(** The scenario facade of the positional variant. *)
Definition facade1 : LoggerV1.Logger :=
  @LoggerV1.Build_Logger Ctx ZapModel.engine scenarioHandle (Some traceFn).

Definition stFacade1 : LoggerV1.State :=
  @LoggerV1.Build_State Ctx ZapModel.engine [facade1] mem0 wNew2.

(** The scenario facade and a child of it with the component field. *)
Definition childFacade : LoggerV2.Logger :=
  @LoggerV2.Build_Logger Ctx ZapModel.engine
    {| ZapModel.core_level := DebugLevel;
       ZapModel.core_time := ISO8601TimeEncoder;
       ZapModel.core_nostack := true;
       ZapModel.core_caller := true;
       ZapModel.core_initial := {[ "service" := AString "svc" ]};
       ZapModel.core_persistent := [AString "component"; AString "x"];
       ZapModel.core_out := ["mem://buf"];
       ZapModel.core_sampler := sampler 1 |}
    (Some traceFn) DebugLevel ["mem://buf"].

Definition stChild : LoggerV2.State :=
  @LoggerV2.Build_State Ctx ZapModel.engine [facade2; childFacade] mem0 wNew2.

End Examples2.

(** * Facts about slices *)
Section SliceFacts.

Local Open Scope nat_scope.

Lemma cells_alter f a (m : list (list any)) :
  f [] = [] -> Go.cells (alter f a m) a = f (Go.cells m a).
Proof.
  intros Hf. unfold Go.cells. rewrite list_lookup_alter_eq.
  by destruct (m !! a).
Qed.

Lemma cells_alter_ne f a b (m : list (list any)) :
  a <> b -> Go.cells (alter f a m) b = Go.cells m b.
Proof. intros Hne. unfold Go.cells. by rewrite list_lookup_alter_ne. Qed.

Lemma cells_app_l (m : list (list any)) k a :
  a < List.length m -> Go.cells (m ++ k) a = Go.cells m a.
Proof. intros Hlt. unfold Go.cells. by rewrite lookup_app_l. Qed.

Lemma cells_fresh (m : list (list any)) x :
  Go.cells (m ++ [x]) (List.length m) = x.
Proof. unfold Go.cells. by rewrite list_lookup_middle. Qed.

Lemma cells_unallocated (m : list (list any)) a :
  List.length m <= a -> Go.cells m a = [].
Proof. intros Hge. unfold Go.cells. by rewrite lookup_ge_None_2. Qed.

Lemma elems_lookup m s i :
  Go.elems m s !! i
  = if decide (i < Go.len s)
    then Go.cells m (Go.array s) !! (Go.off s + i)
    else None.
Proof. unfold Go.elems. by rewrite lookup_take, lookup_drop. Qed.

Lemma elems_length m s :
  Go.wf m s -> List.length (Go.elems m s) = Go.len s.
Proof.
  intros [Hlen Hcap]. unfold Go.elems.
  rewrite length_take, length_drop. lia.
Qed.

(** The slice that [append] returns shows the old elements followed by the
    new ones. *)
Lemma append_elems m s xs :
  Go.wf m s ->
  Go.elems (Go.append m s xs).2 (Go.append m s xs).1 = Go.elems m s ++ xs.
Proof.
  intros Hwf. pose proof Hwf as [Hlen Hcap]. unfold Go.append. cbn zeta.
  destruct (Nat.leb_spec (Go.len s + List.length xs) (Go.cap s)) as [Hfit|Hno];
    cbn [fst snd].
  - apply list_eq. intros i.
    rewrite elems_lookup. cbn [Go.len Go.array Go.off].
    rewrite cells_alter by apply list_inserts_nil.
    rewrite lookup_app, elems_lookup, (elems_length m s Hwf).
    destruct (decide (i < Go.len s)) as [Hi|Hi].
    + rewrite decide_True by lia.
      rewrite list_lookup_inserts_lt by lia.
      destruct (Go.cells m (Go.array s) !! (Go.off s + i)) eqn:Hc; [done|].
      apply lookup_ge_None in Hc. lia.
    + case_decide as Hin.
      * rewrite list_lookup_inserts by lia. f_equal. lia.
      * symmetry. apply lookup_ge_None. lia.
  - unfold Go.elems at 1. cbn [Go.len Go.array Go.off].
    rewrite cells_fresh, drop_0. apply take_ge.
    rewrite length_app, (elems_length m s Hwf). lia.
Qed.

(** A slice that lives in another array, or that ends no later than the
    window of [s], shows the same elements after [append m s xs]. *)
Lemma append_frame m s xs t :
  Go.wf m t ->
  Go.array t <> Go.array s \/ Go.off t + Go.len t <= Go.off s + Go.len s ->
  Go.elems (Go.append m s xs).2 t = Go.elems m t.
Proof.
  intros [Hlen Hcap] Hsep. unfold Go.append. cbn zeta.
  destruct (Go.len s + List.length xs <=? Go.cap s); cbn [snd].
  - apply list_eq. intros i. rewrite !elems_lookup.
    case_decide as Hi; [|done].
    destruct (decide (Go.array s = Go.array t)) as [Heq|Hne].
    + rewrite <- Heq. rewrite cells_alter by apply list_inserts_nil.
      apply list_lookup_inserts_lt. destruct Hsep; [congruence | lia].
    + by rewrite cells_alter_ne.
  - destruct (decide (Go.array t < List.length m)) as [Hlt|Hge].
    + unfold Go.elems. by rewrite cells_app_l.
    + rewrite cells_unallocated in Hcap by lia. cbn in Hcap.
      unfold Go.elems. replace (Go.len t) with 0 by lia. by rewrite !take_0.
Qed.

End SliceFacts.

(** * Facts about the facade, for every engine *)
Section FacadeFacts.
Context {Ctx : Type} {Eng : Engine}.

Local Abbreviation Logger2 := (LoggerV2.Logger (Ctx:=Ctx) (Eng:=Eng)).
Local Abbreviation State2 := (LoggerV2.State (Ctx:=Ctx) (Eng:=Eng)).
Local Abbreviation Option2 := (LoggerV2.Option (Ctx:=Ctx) (Eng:=Eng)).
Local Abbreviation Logger1 := (LoggerV1.Logger (Ctx:=Ctx) (Eng:=Eng)).
Local Abbreviation State1 := (LoggerV1.State (Ctx:=Ctx) (Eng:=Eng)).

(** *** The trace-id block *)

Lemma appendTraceID2_nonempty (s : Logger2) fn ctx keyVals m :
  LoggerV2.getTraceIDFn s = Some fn -> fn ctx <> "" ->
  LoggerV2.appendTraceID s ctx keyVals m
  = Go.append m keyVals [AString "trace_id"; AString (fn ctx)].
Proof.
  unfold LoggerV2.appendTraceID. intros -> Hne. cbn zeta.
  destruct (String.eqb_spec (fn ctx) ""); [contradiction | reflexivity].
Qed.

Lemma appendTraceID2_empty (s : Logger2) fn ctx keyVals m :
  LoggerV2.getTraceIDFn s = Some fn -> fn ctx = "" ->
  LoggerV2.appendTraceID s ctx keyVals m = (keyVals, m).
Proof.
  unfold LoggerV2.appendTraceID. intros -> He. cbn zeta. by rewrite He.
Qed.

Lemma appendTraceID1_nonempty (s : Logger1) fn ctx keyVals m :
  LoggerV1.getTraceID s = Some fn -> fn ctx <> "" ->
  LoggerV1.appendTraceID s ctx keyVals m
  = Go.append m keyVals [AString "trace_id"; AString (fn ctx)].
Proof.
  unfold LoggerV1.appendTraceID. intros -> Hne. cbn zeta.
  destruct (String.eqb_spec (fn ctx) ""); [contradiction | reflexivity].
Qed.

Lemma appendTraceID1_empty (s : Logger1) fn ctx keyVals m :
  LoggerV1.getTraceID s = Some fn -> fn ctx = "" ->
  LoggerV1.appendTraceID s ctx keyVals m = (keyVals, m).
Proof.
  unfold LoggerV1.appendTraceID. intros -> He. cbn zeta. by rewrite He.
Qed.

(** The block either leaves slice and arrays alone or is one [append] of
    the pair. *)
Lemma appendTraceID2_cases (s : Logger2) ctx keyVals m :
  LoggerV2.appendTraceID s ctx keyVals m = (keyVals, m) \/
  exists traceID, traceID <> "" /\
    LoggerV2.appendTraceID s ctx keyVals m
    = Go.append m keyVals [AString "trace_id"; AString traceID].
Proof.
  unfold LoggerV2.appendTraceID.
  destruct (LoggerV2.getTraceIDFn s) as [fn|]; [|by left]. cbn zeta.
  destruct (String.eqb_spec (fn ctx) ""); [by left | right; eauto].
Qed.

Lemma appendTraceID1_cases (s : Logger1) ctx keyVals m :
  LoggerV1.appendTraceID s ctx keyVals m = (keyVals, m) \/
  exists traceID, traceID <> "" /\
    LoggerV1.appendTraceID s ctx keyVals m
    = Go.append m keyVals [AString "trace_id"; AString traceID].
Proof.
  unfold LoggerV1.appendTraceID.
  destruct (LoggerV1.getTraceID s) as [fn|]; [|by left]. cbn zeta.
  destruct (String.eqb_spec (fn ctx) ""); [by left | right; eauto].
Qed.

(** What the engine is handed: the caller's elements, then nothing or the
    pair. *)
Lemma appendTraceID2_elems (s : Logger2) ctx keyVals m :
  Go.wf m keyVals ->
  exists suffix,
    (suffix = [] \/
     exists traceID, suffix = [AString "trace_id"; AString traceID]) /\
    Go.elems (LoggerV2.appendTraceID s ctx keyVals m).2
      (LoggerV2.appendTraceID s ctx keyVals m).1
    = Go.elems m keyVals ++ suffix.
Proof.
  intros Hwf.
  destruct (appendTraceID2_cases s ctx keyVals m) as [-> | (t & _ & ->)].
  - exists []. split; [by left|]. by rewrite app_nil_r.
  - eexists. split; [right; eauto|]. by apply append_elems.
Qed.

Lemma appendTraceID1_elems (s : Logger1) ctx keyVals m :
  Go.wf m keyVals ->
  exists suffix,
    (suffix = [] \/
     exists traceID, suffix = [AString "trace_id"; AString traceID]) /\
    Go.elems (LoggerV1.appendTraceID s ctx keyVals m).2
      (LoggerV1.appendTraceID s ctx keyVals m).1
    = Go.elems m keyVals ++ suffix.
Proof.
  intros Hwf.
  destruct (appendTraceID1_cases s ctx keyVals m) as [-> | (t & _ & ->)].
  - exists []. split; [by left|]. by rewrite app_nil_r.
  - eexists. split; [right; eauto|]. by apply append_elems.
Qed.

(** Slices outside the spare capacity of [keyVals] show what they showed. *)
Lemma appendTraceID2_frame (s : Logger2) ctx keyVals m t :
  Go.wf m t ->
  Go.array t <> Go.array keyVals \/
  (Go.off t + Go.len t <= Go.off keyVals + Go.len keyVals)%nat ->
  Go.elems (LoggerV2.appendTraceID s ctx keyVals m).2 t = Go.elems m t.
Proof.
  intros Hwf Hsep.
  destruct (appendTraceID2_cases s ctx keyVals m) as [-> | (id & _ & ->)];
    [reflexivity | by apply append_frame].
Qed.

Lemma appendTraceID1_frame (s : Logger1) ctx keyVals m t :
  Go.wf m t ->
  Go.array t <> Go.array keyVals \/
  (Go.off t + Go.len t <= Go.off keyVals + Go.len keyVals)%nat ->
  Go.elems (LoggerV1.appendTraceID s ctx keyVals m).2 t = Go.elems m t.
Proof.
  intros Hwf Hsep.
  destruct (appendTraceID1_cases s ctx keyVals m) as [-> | (id & _ & ->)];
    [reflexivity | by apply append_frame].
Qed.

(** *** Every log call is one engine call on the receiver's handle *)

Lemma call2_eq (c : Call) l ctx msg keyVals (st : State2) s :
  LoggerV2.heap st !! l = Some s ->
  V2.call c l ctx msg keyVals st
  = Some (V2.delegated c s msg
            (Go.elems
               (LoggerV2.appendTraceID s ctx keyVals (LoggerV2.arrays st)).2
               (LoggerV2.appendTraceID s ctx keyVals (LoggerV2.arrays st)).1)
            (LoggerV2.appendTraceID s ctx keyVals (LoggerV2.arrays st)).2 st).
Proof.
  intros Hl.
  destruct c; cbn [V2.call engineCall];
    unfold LoggerV2.Info, LoggerV2.Error, LoggerV2.Debug;
    rewrite Hl; cbn [mbind option_bind];
    by destruct (LoggerV2.appendTraceID _ _ _ _).
Qed.

Lemma call1_eq (c : Call) l ctx msg keyVals (st : State1) s :
  LoggerV1.heap st !! l = Some s ->
  V1.call c l ctx msg keyVals st
  = Some (V1.delegated c s msg
            (Go.elems
               (LoggerV1.appendTraceID s ctx keyVals (LoggerV1.arrays st)).2
               (LoggerV1.appendTraceID s ctx keyVals (LoggerV1.arrays st)).1)
            (LoggerV1.appendTraceID s ctx keyVals (LoggerV1.arrays st)).2 st).
Proof.
  intros Hl.
  destruct c; cbn [V1.call engineCall];
    unfold LoggerV1.Info, LoggerV1.Error, LoggerV1.Debug;
    rewrite Hl; cbn [mbind option_bind];
    by destruct (LoggerV1.appendTraceID _ _ _ _).
Qed.

Lemma call2_inv (c : Call) l ctx msg keyVals (st st' : State2) :
  V2.call c l ctx msg keyVals st = Some st' ->
  exists s, LoggerV2.heap st !! l = Some s.
Proof.
  destruct (LoggerV2.heap st !! l) as [s|] eqn:Hl; [eauto|].
  destruct c; cbn [V2.call];
    unfold LoggerV2.Info, LoggerV2.Error, LoggerV2.Debug;
    rewrite Hl; discriminate.
Qed.

Lemma call1_inv (c : Call) l ctx msg keyVals (st st' : State1) :
  V1.call c l ctx msg keyVals st = Some st' ->
  exists s, LoggerV1.heap st !! l = Some s.
Proof.
  destruct (LoggerV1.heap st !! l) as [s|] eqn:Hl; [eauto|].
  destruct c; cbn [V1.call];
    unfold LoggerV1.Info, LoggerV1.Error, LoggerV1.Debug;
    rewrite Hl; discriminate.
Qed.

(** *** Derivation and flush *)

Lemma With2_eq l keyVals (st : State2) s :
  LoggerV2.heap st !! l = Some s ->
  LoggerV2.With l keyVals st
  = Some (List.length (LoggerV2.heap st),
          {| LoggerV2.heap :=
               LoggerV2.heap st ++
               [ {| LoggerV2.zapLogger :=
                      (SugaredWith (LoggerV2.zapLogger s)
                         (Go.elems (LoggerV2.arrays st) keyVals)
                         (LoggerV2.world st)).1;
                    LoggerV2.getTraceIDFn := LoggerV2.getTraceIDFn s;
                    LoggerV2.level := LoggerV2.level s;
                    LoggerV2.outputPaths := LoggerV2.outputPaths s |} ];
             LoggerV2.arrays := LoggerV2.arrays st;
             LoggerV2.world :=
               (SugaredWith (LoggerV2.zapLogger s)
                  (Go.elems (LoggerV2.arrays st) keyVals)
                  (LoggerV2.world st)).2 |}).
Proof.
  intros Hl. unfold LoggerV2.With. rewrite Hl. cbn [mbind option_bind].
  by destruct (SugaredWith _ _ _).
Qed.

Lemma With1_eq l keyVals (st : State1) s :
  LoggerV1.heap st !! l = Some s ->
  LoggerV1.With l keyVals st
  = Some (List.length (LoggerV1.heap st),
          {| LoggerV1.heap :=
               LoggerV1.heap st ++
               [ {| LoggerV1.zapLogger :=
                      (SugaredWith (LoggerV1.zapLogger s)
                         (Go.elems (LoggerV1.arrays st) keyVals)
                         (LoggerV1.world st)).1;
                    LoggerV1.getTraceID := LoggerV1.getTraceID s |} ];
             LoggerV1.arrays := LoggerV1.arrays st;
             LoggerV1.world :=
               (SugaredWith (LoggerV1.zapLogger s)
                  (Go.elems (LoggerV1.arrays st) keyVals)
                  (LoggerV1.world st)).2 |}).
Proof.
  intros Hl. unfold LoggerV1.With. rewrite Hl. cbn [mbind option_bind].
  by destruct (SugaredWith _ _ _).
Qed.

Lemma Sync2_eq l (st : State2) s :
  LoggerV2.heap st !! l = Some s ->
  LoggerV2.Sync l st
  = Some ((SugaredSync (LoggerV2.zapLogger s) (LoggerV2.world st)).1,
          {| LoggerV2.heap := LoggerV2.heap st;
             LoggerV2.arrays := LoggerV2.arrays st;
             LoggerV2.world :=
               (SugaredSync (LoggerV2.zapLogger s) (LoggerV2.world st)).2 |}).
Proof.
  intros Hl. unfold LoggerV2.Sync. rewrite Hl. cbn [mbind option_bind].
  by destruct (SugaredSync _ _).
Qed.

Lemma Sync1_eq l (st : State1) s :
  LoggerV1.heap st !! l = Some s ->
  LoggerV1.Sync l st
  = Some ((SugaredSync (LoggerV1.zapLogger s) (LoggerV1.world st)).1,
          {| LoggerV1.heap := LoggerV1.heap st;
             LoggerV1.arrays := LoggerV1.arrays st;
             LoggerV1.world :=
               (SugaredSync (LoggerV1.zapLogger s) (LoggerV1.world st)).2 |}).
Proof.
  intros Hl. unfold LoggerV1.Sync. rewrite Hl. cbn [mbind option_bind].
  by destruct (SugaredSync _ _).
Qed.

(** *** The option loop *)

Lemma applyOptions_fresh (opts : list Option2) (h : list Logger2) s :
  LoggerV2.applyOptions opts (List.length h) (h ++ [s])
  = (fun s' => h ++ [s']) <$> V2.applyAll opts s.
Proof.
  revert s. induction opts as [|[f|] opts IH]; intros s;
    [reflexivity | | reflexivity].
  cbn [LoggerV2.applyOptions V2.applyAll mbind option_bind].
  replace (alter f (List.length h) (h ++ [s])) with (h ++ [f s]);
    [apply IH|].
  rewrite <- (Nat.add_0_r (List.length h)) at 1.
  by rewrite alter_app_r.
Qed.

Lemma applyAll_app (pre post : list Option2) (s : Logger2) :
  V2.applyAll (pre ++ post) s = V2.applyAll pre s ≫= V2.applyAll post.
Proof.
  revert s. induction pre as [|[f|] pre IH]; intros s;
    [reflexivity | apply IH | reflexivity].
Qed.

(** The loop completes exactly when no option is nil. *)
Lemma applyAll_is_Some (opts : list Option2) (s : Logger2) :
  is_Some (V2.applyAll opts s) <-> Forall is_Some opts.
Proof.
  revert s. induction opts as [|[f|] opts IH]; intros s.
  - split; [constructor | by eexists].
  - cbn [V2.applyAll mbind option_bind]. rewrite IH. split.
    + intros H. constructor; [by eexists | exact H].
    + by inversion 1.
  - cbn [V2.applyAll mbind option_bind]. split.
    + by intros [? ?].
    + inversion 1 as [|? ? Hnil]. by destruct Hnil.
Qed.

Lemma applyAll_nil (opts : list Option2) (s : Logger2) :
  None ∈ opts -> V2.applyAll opts s = None.
Proof.
  intros Hin. destruct (V2.applyAll opts s) as [s'|] eqn:Hs; [|reflexivity].
  assert (Hall : Forall is_Some opts)
    by (apply (applyAll_is_Some opts s); eauto).
  rewrite Forall_forall in Hall. by destruct (Hall None Hin).
Qed.

Lemma resolve_snoc (opts : list Option2) (o : Option2) l0 :
  V2.resolve (opts ++ [o]) l0 = (s ← V2.resolve opts l0; f ← o; Some (f s)).
Proof.
  unfold V2.resolve. rewrite applyAll_app.
  destruct (V2.applyAll opts _) as [s|]; [|reflexivity].
  by destruct o.
Qed.

Lemma resolve_app (pre post : list Option2) l0 :
  V2.resolve (pre ++ post) l0 = V2.resolve pre l0 ≫= V2.applyAll post.
Proof. apply applyAll_app. Qed.

(** The result of [New]: the early return when [zap.NewProduction()]
    fails; otherwise a panic when the option loop meets a nil option, and
    else the outcome of the build of the configuration of the resolved
    struct. *)
Lemma New2_eq service (opts : list Option2) (st : State2) :
  LoggerV2.New service opts st
  = match NewProduction (LoggerV2.world st) with
    | (inl err, w1) =>
        Some (None, Some err,
              {| LoggerV2.heap := LoggerV2.heap st;
                 LoggerV2.arrays := LoggerV2.arrays st;
                 LoggerV2.world := w1 |})
    | (inr l0, w1) =>
        s ← V2.resolve opts l0;
        Some (V2.newOutcome st s
                (Build (LoggerV2.newConfig service s) true w1))
    end.
Proof.
  unfold LoggerV2.New.
  destruct (NewProduction (LoggerV2.world st)) as [[err|l0] w1];
    [reflexivity|].
  cbn zeta. rewrite applyOptions_fresh. unfold V2.resolve.
  destruct (V2.applyAll opts (LoggerV2.defaultLogger l0)) as [s|];
    [|reflexivity].
  cbn [fmap option_fmap option_map mbind option_bind].
  rewrite list_lookup_middle by reflexivity. cbn [mbind option_bind].
  destruct (Build _ true w1) as [[err|z] w2]; cbn [V2.newOutcome];
    [reflexivity|].
  do 3 f_equal.
  rewrite <- (Nat.add_0_r (List.length (LoggerV2.heap st))) at 1.
  by rewrite alter_app_r.
Qed.

End FacadeFacts.

(** * The claims that hold for every engine *)
Section Claims.
Context {Ctx : Type} {Eng : Engine}.

Local Abbreviation Logger2 := (LoggerV2.Logger (Ctx:=Ctx) (Eng:=Eng)).
Local Abbreviation State2 := (LoggerV2.State (Ctx:=Ctx) (Eng:=Eng)).
Local Abbreviation Option2 := (LoggerV2.Option (Ctx:=Ctx) (Eng:=Eng)).
Local Abbreviation Logger1 := (LoggerV1.Logger (Ctx:=Ctx) (Eng:=Eng)).
Local Abbreviation State1 := (LoggerV1.State (Ctx:=Ctx) (Eng:=Eng)).

(** C1: for each of Info, Error and Debug on a facade whose trace function
    is [fn], the function is applied to the supplied context; when it answers
    a non-empty string the engine receives the caller's fields followed by
    the one pair trace_id, answer (one [append] of that pair); when it
    answers the empty string the engine receives the caller's fields
    unchanged and no array is touched.  Both variants. *)
Theorem C1_trace_id_appended (c : Call) (fn : Ctx -> string) (ctx : Ctx)
    (msg : string) (keyVals : Go.Slice) :
  (forall l (st : State2) s,
      LoggerV2.heap st !! l = Some s ->
      LoggerV2.getTraceIDFn s = Some fn ->
      Go.wf (LoggerV2.arrays st) keyVals ->
      (fn ctx <> "" ->
       V2.call c l ctx msg keyVals st
       = Some (V2.delegated c s msg
                 (Go.elems (LoggerV2.arrays st) keyVals
                  ++ [AString "trace_id"; AString (fn ctx)])
                 (Go.append (LoggerV2.arrays st) keyVals
                    [AString "trace_id"; AString (fn ctx)]).2 st)) /\
      (fn ctx = "" ->
       V2.call c l ctx msg keyVals st
       = Some (V2.delegated c s msg (Go.elems (LoggerV2.arrays st) keyVals)
                 (LoggerV2.arrays st) st))) /\
  (forall l (st : State1) s,
      LoggerV1.heap st !! l = Some s ->
      LoggerV1.getTraceID s = Some fn ->
      Go.wf (LoggerV1.arrays st) keyVals ->
      (fn ctx <> "" ->
       V1.call c l ctx msg keyVals st
       = Some (V1.delegated c s msg
                 (Go.elems (LoggerV1.arrays st) keyVals
                  ++ [AString "trace_id"; AString (fn ctx)])
                 (Go.append (LoggerV1.arrays st) keyVals
                    [AString "trace_id"; AString (fn ctx)]).2 st)) /\
      (fn ctx = "" ->
       V1.call c l ctx msg keyVals st
       = Some (V1.delegated c s msg (Go.elems (LoggerV1.arrays st) keyVals)
                 (LoggerV1.arrays st) st))).
Proof.
  split; intros l st s Hl Hfn Hwf; split; intros Hid.
  - rewrite (call2_eq c l ctx msg keyVals st s Hl).
    rewrite (appendTraceID2_nonempty s fn ctx keyVals _ Hfn Hid).
    by rewrite append_elems.
  - rewrite (call2_eq c l ctx msg keyVals st s Hl).
    by rewrite (appendTraceID2_empty s fn ctx keyVals _ Hfn Hid).
  - rewrite (call1_eq c l ctx msg keyVals st s Hl).
    rewrite (appendTraceID1_nonempty s fn ctx keyVals _ Hfn Hid).
    by rewrite append_elems.
  - rewrite (call1_eq c l ctx msg keyVals st s Hl).
    by rewrite (appendTraceID1_empty s fn ctx keyVals _ Hfn Hid).
Qed.

(** C8: Info, Error and Debug on a live facade always complete: they return
    a state and no error value, for every field sequence, whatever its
    length and whatever the types of its keys; the engine receives the
    elements of that sequence unmodified, followed by nothing or by the
    trace pair.  Both variants. *)
Theorem C8_log_calls_never_fail (c : Call) (l : nat) (ctx : Ctx)
    (msg : string) (keyVals : Go.Slice) :
  (forall (st : State2) s,
      LoggerV2.heap st !! l = Some s ->
      Go.wf (LoggerV2.arrays st) keyVals ->
      exists suffix m,
        (suffix = [] \/
         exists traceID, suffix = [AString "trace_id"; AString traceID]) /\
        V2.call c l ctx msg keyVals st
        = Some (V2.delegated c s msg
                  (Go.elems (LoggerV2.arrays st) keyVals ++ suffix) m st)) /\
  (forall (st : State1) s,
      LoggerV1.heap st !! l = Some s ->
      Go.wf (LoggerV1.arrays st) keyVals ->
      exists suffix m,
        (suffix = [] \/
         exists traceID, suffix = [AString "trace_id"; AString traceID]) /\
        V1.call c l ctx msg keyVals st
        = Some (V1.delegated c s msg
                  (Go.elems (LoggerV1.arrays st) keyVals ++ suffix) m st)).
Proof.
  split; intros st s Hl Hwf.
  - rewrite (call2_eq c l ctx msg keyVals st s Hl).
    destruct (appendTraceID2_elems s ctx keyVals _ Hwf)
      as (suffix & Hsuffix & ->).
    by exists suffix, (LoggerV2.appendTraceID s ctx keyVals
                         (LoggerV2.arrays st)).2.
  - rewrite (call1_eq c l ctx msg keyVals st s Hl).
    destruct (appendTraceID1_elems s ctx keyVals _ Hwf)
      as (suffix & Hsuffix & ->).
    by exists suffix, (LoggerV1.appendTraceID s ctx keyVals
                         (LoggerV1.arrays st)).2.
Qed.

(** C9: Sync on a live facade calls the flush of the engine once on the
    facade's handle and returns exactly what it returned: the same error,
    or no error when the engine reported none; the world is the one the
    engine left.  Both variants. *)
Theorem C9_sync_returns_engine_error (l : nat) :
  (forall (st : State2) s err w,
      LoggerV2.heap st !! l = Some s ->
      SugaredSync (LoggerV2.zapLogger s) (LoggerV2.world st) = (err, w) ->
      LoggerV2.Sync l st
      = Some (err, {| LoggerV2.heap := LoggerV2.heap st;
                      LoggerV2.arrays := LoggerV2.arrays st;
                      LoggerV2.world := w |})) /\
  (forall (st : State1) s err w,
      LoggerV1.heap st !! l = Some s ->
      SugaredSync (LoggerV1.zapLogger s) (LoggerV1.world st) = (err, w) ->
      LoggerV1.Sync l st
      = Some (err, {| LoggerV1.heap := LoggerV1.heap st;
                      LoggerV1.arrays := LoggerV1.arrays st;
                      LoggerV1.world := w |})).
Proof.
  split; intros st s err w Hl Hsync.
  - rewrite (Sync2_eq l st s Hl), Hsync. reflexivity.
  - rewrite (Sync1_eq l st s Hl), Hsync. reflexivity.
Qed.

(** C10, amended: a log call that returns leaves the heap of facades as it
    was; in particular the receiver has the same engine handle, trace
    function, level and output paths before and after.  The caller's field
    slice shows the same elements after the call, and so does every slice
    that lives in another array or ends no later than the caller's window;
    the engine is handed the caller's elements followed by nothing or by
    the trace pair.  Both variants. *)
Theorem C10_log_calls_keep_facade (c : Call) (l : nat) (ctx : Ctx)
    (msg : string) (keyVals : Go.Slice) :
  (forall (st st' : State2),
      V2.call c l ctx msg keyVals st = Some st' ->
      Go.wf (LoggerV2.arrays st) keyVals ->
      LoggerV2.heap st' = LoggerV2.heap st /\
      (exists s s',
          LoggerV2.heap st !! l = Some s /\
          LoggerV2.heap st' !! l = Some s' /\
          LoggerV2.zapLogger s' = LoggerV2.zapLogger s /\
          LoggerV2.getTraceIDFn s' = LoggerV2.getTraceIDFn s /\
          LoggerV2.level s' = LoggerV2.level s /\
          LoggerV2.outputPaths s' = LoggerV2.outputPaths s /\
          exists suffix,
            (suffix = [] \/
             exists traceID, suffix = [AString "trace_id"; AString traceID]) /\
            LoggerV2.world st'
            = engineCall c (LoggerV2.zapLogger s) msg
                (Go.elems (LoggerV2.arrays st) keyVals ++ suffix)
                (LoggerV2.world st)) /\
      Go.elems (LoggerV2.arrays st') keyVals
      = Go.elems (LoggerV2.arrays st) keyVals /\
      (forall t,
          Go.wf (LoggerV2.arrays st) t ->
          Go.array t <> Go.array keyVals \/
          (Go.off t + Go.len t <= Go.off keyVals + Go.len keyVals)%nat ->
          Go.elems (LoggerV2.arrays st') t
          = Go.elems (LoggerV2.arrays st) t)) /\
  (forall (st st' : State1),
      V1.call c l ctx msg keyVals st = Some st' ->
      Go.wf (LoggerV1.arrays st) keyVals ->
      LoggerV1.heap st' = LoggerV1.heap st /\
      (exists s s',
          LoggerV1.heap st !! l = Some s /\
          LoggerV1.heap st' !! l = Some s' /\
          LoggerV1.zapLogger s' = LoggerV1.zapLogger s /\
          LoggerV1.getTraceID s' = LoggerV1.getTraceID s /\
          exists suffix,
            (suffix = [] \/
             exists traceID, suffix = [AString "trace_id"; AString traceID]) /\
            LoggerV1.world st'
            = engineCall c (LoggerV1.zapLogger s) msg
                (Go.elems (LoggerV1.arrays st) keyVals ++ suffix)
                (LoggerV1.world st)) /\
      Go.elems (LoggerV1.arrays st') keyVals
      = Go.elems (LoggerV1.arrays st) keyVals /\
      (forall t,
          Go.wf (LoggerV1.arrays st) t ->
          Go.array t <> Go.array keyVals \/
          (Go.off t + Go.len t <= Go.off keyVals + Go.len keyVals)%nat ->
          Go.elems (LoggerV1.arrays st') t
          = Go.elems (LoggerV1.arrays st) t)).
Proof.
  split; intros st st' Hcall Hwf.
  - destruct (call2_inv c l ctx msg keyVals st st' Hcall) as [s Hl].
    rewrite (call2_eq c l ctx msg keyVals st s Hl) in Hcall.
    injection Hcall as <-.
    cbn [V2.delegated LoggerV2.heap LoggerV2.world LoggerV2.arrays].
    split; [reflexivity|]. split; [|split].
    + exists s, s. do 6 (split; [done|]).
      destruct (appendTraceID2_elems s ctx keyVals _ Hwf)
        as (suffix & Hsuffix & ->). eauto.
    + apply appendTraceID2_frame; [done | right; lia].
    + intros t Ht Hsep. by apply appendTraceID2_frame.
  - destruct (call1_inv c l ctx msg keyVals st st' Hcall) as [s Hl].
    rewrite (call1_eq c l ctx msg keyVals st s Hl) in Hcall.
    injection Hcall as <-.
    cbn [V1.delegated LoggerV1.heap LoggerV1.world LoggerV1.arrays].
    split; [reflexivity|]. split; [|split].
    + exists s, s. do 4 (split; [done|]).
      destruct (appendTraceID1_elems s ctx keyVals _ Hwf)
        as (suffix & Hsuffix & ->). eauto.
    + apply appendTraceID1_frame; [done | right; lia].
    + intros t Ht Hsep. by apply appendTraceID1_frame.
Qed.

(** *** Options that leave a setting alone *)

Lemma applyAll_keeps_level (post : list Option2) (s : Logger2) :
  Forall V2.notWithLevel post ->
  exists s', V2.applyAll post s = Some s' /\
             LoggerV2.level s' = LoggerV2.level s.
Proof.
  intros H. revert s.
  induction H as [|o post [[fn ->]|[ps ->]] _ IH]; intros s;
    [by exists s | |];
    cbn [V2.applyAll LoggerV2.WithTraceID LoggerV2.WithOutputPaths
         mbind option_bind];
    match goal with
    | |- context [V2.applyAll post ?s0] =>
        destruct (IH s0) as (s' & -> & Hs')
    end; exists s'; by rewrite Hs'.
Qed.

Lemma applyAll_keeps_outputPaths (post : list Option2) (s : Logger2) :
  Forall V2.notWithOutputPaths post ->
  exists s', V2.applyAll post s = Some s' /\
             LoggerV2.outputPaths s' = LoggerV2.outputPaths s.
Proof.
  intros H. revert s.
  induction H as [|o post [[fn ->]|[lvl ->]] _ IH]; intros s;
    [by exists s | |];
    cbn [V2.applyAll LoggerV2.WithTraceID LoggerV2.WithLevel
         mbind option_bind];
    match goal with
    | |- context [V2.applyAll post ?s0] =>
        destruct (IH s0) as (s' & -> & Hs')
    end; exists s'; by rewrite Hs'.
Qed.

Lemma applyAll_keeps_getTraceIDFn (post : list Option2) (s : Logger2) :
  Forall V2.notWithTraceID post ->
  exists s', V2.applyAll post s = Some s' /\
             LoggerV2.getTraceIDFn s' = LoggerV2.getTraceIDFn s.
Proof.
  intros H. revert s.
  induction H as [|o post [[lvl ->]|[ps ->]] _ IH]; intros s;
    [by exists s | |];
    cbn [V2.applyAll LoggerV2.WithLevel LoggerV2.WithOutputPaths
         mbind option_bind];
    match goal with
    | |- context [V2.applyAll post ?s0] =>
        destruct (IH s0) as (s' & -> & Hs')
    end; exists s'; by rewrite Hs'.
Qed.

(** What a successful [New] leaves behind the pointer it returns. *)
Lemma New2_success service (opts : list Option2) (st st' : State2) l s :
  LoggerV2.New service opts st = Some (Some l, None, st') ->
  LoggerV2.heap st' !! l = Some s ->
  exists l0 w1 s0,
    NewProduction (LoggerV2.world st) = (inr l0, w1) /\
    V2.resolve opts l0 = Some s0 /\
    Build (LoggerV2.newConfig service s0) true w1
    = (inr (LoggerV2.zapLogger s), LoggerV2.world st') /\
    l = List.length (LoggerV2.heap st) /\
    LoggerV2.heap st' = LoggerV2.heap st ++ [s] /\
    LoggerV2.arrays st' = LoggerV2.arrays st /\
    s = LoggerV2.setZapLogger (LoggerV2.zapLogger s) s0.
Proof.
  rewrite New2_eq. intros Hnew Hl.
  destruct (NewProduction (LoggerV2.world st)) as [[err|l0] w1];
    [discriminate|].
  destruct (V2.resolve opts l0) as [s0|] eqn:Hres; [|discriminate].
  cbn [mbind option_bind] in Hnew. injection Hnew as Hnew.
  exists l0, w1, s0. split; [reflexivity|]. split; [exact Hres|].
  destruct (Build _ true w1) as [[err|z] w2]; cbn [V2.newOutcome] in Hnew;
    [discriminate|].
  injection Hnew as <- <-. cbn [LoggerV2.heap LoggerV2.world] in *.
  rewrite list_lookup_middle in Hl by reflexivity.
  injection Hl as <-. by repeat split.
Qed.

(** C3: [New] calls the options from left to right on the defaults (the
    struct it resolves for [opts ++ [o]] is [o] called on the one for
    [opts]) and builds the engine from the result; the loop completes
    exactly when no option is nil, and then, when an option sets the level,
    the output paths or the trace function and no later option sets the
    same setting, the resolved value is the one of that option, whatever
    the options before it are. *)
Theorem C3_options_in_order_last_wins (service : string)
    (opts : list Option2) (st : State2) (l0 : SugaredLogger) (w1 : World) :
  NewProduction (LoggerV2.world st) = (inr l0, w1) ->
  LoggerV2.New service opts st
  = (s ← V2.resolve opts l0;
     Some (V2.newOutcome st s (Build (LoggerV2.newConfig service s) true w1)))
  /\ V2.resolve ([] : list Option2) l0 = Some (LoggerV2.defaultLogger l0)
  /\ (forall o,
        V2.resolve (opts ++ [o]) l0
        = (s ← V2.resolve opts l0; f ← o; Some (f s)))
  /\ (is_Some (V2.resolve opts l0) <-> Forall is_Some opts)
  /\ (forall pre lvl post s,
        opts = pre ++ LoggerV2.WithLevel lvl :: post ->
        Forall V2.notWithLevel post ->
        V2.resolve opts l0 = Some s ->
        LoggerV2.level s = lvl /\
        cfg_Level (LoggerV2.newConfig service s) = lvl)
  /\ (forall pre ps post s,
        opts = pre ++ LoggerV2.WithOutputPaths ps :: post ->
        Forall V2.notWithOutputPaths post ->
        V2.resolve opts l0 = Some s ->
        LoggerV2.outputPaths s = ps /\
        cfg_OutputPaths (LoggerV2.newConfig service s) = ps)
  /\ (forall pre fn post s,
        opts = pre ++ LoggerV2.WithTraceID fn :: post ->
        Forall V2.notWithTraceID post ->
        V2.resolve opts l0 = Some s ->
        LoggerV2.getTraceIDFn s = fn).
Proof.
  intros Hprod. split; [by rewrite New2_eq, Hprod|].
  split; [reflexivity|]. split; [intros o; apply resolve_snoc|].
  split; [apply applyAll_is_Some|].
  split; [|split].
  - intros pre lvl post s -> Hpost. cbn [LoggerV2.newConfig cfg_Level].
    rewrite resolve_app.
    destruct (V2.resolve pre l0) as [s0|]; [|discriminate].
    cbn [mbind option_bind V2.applyAll LoggerV2.WithLevel].
    match goal with
    | |- context [V2.applyAll post ?s1] =>
        destruct (applyAll_keeps_level post s1 Hpost) as (s' & -> & Hs')
    end.
    intros [= <-]. by rewrite Hs'.
  - intros pre ps post s -> Hpost. cbn [LoggerV2.newConfig cfg_OutputPaths].
    rewrite resolve_app.
    destruct (V2.resolve pre l0) as [s0|]; [|discriminate].
    cbn [mbind option_bind V2.applyAll LoggerV2.WithOutputPaths].
    match goal with
    | |- context [V2.applyAll post ?s1] =>
        destruct (applyAll_keeps_outputPaths post s1 Hpost) as (s' & -> & Hs')
    end.
    intros [= <-]. by rewrite Hs'.
  - intros pre fn post s -> Hpost.
    rewrite resolve_app.
    destruct (V2.resolve pre l0) as [s0|]; [|discriminate].
    cbn [mbind option_bind V2.applyAll LoggerV2.WithTraceID].
    match goal with
    | |- context [V2.applyAll post ?s1] =>
        destruct (applyAll_keeps_getTraceIDFn post s1 Hpost)
          as (s' & -> & Hs')
    end.
    intros [= <-]. by rewrite Hs'.
Qed.


(** C6, amended: after a successful construction the facade's output paths
    are [stdout] when no option sets them, and otherwise exactly the list of
    the last option that sets them, which is non-empty when that list is
    (an empty list is kept as it is); the engine was built with the same
    list.  In the positional variant the configuration carries [stdout] when
    no path is given and the given slice otherwise. *)
Theorem C6_sink_list_after_construction (service : string) :
  (forall (opts : list Option2) l (st st' : State2) s,
      LoggerV2.New service opts st = Some (Some l, None, st') ->
      LoggerV2.heap st' !! l = Some s ->
      (Forall V2.notWithOutputPaths opts ->
       LoggerV2.outputPaths s = ["stdout"]) /\
      (forall pre ps post,
          opts = pre ++ LoggerV2.WithOutputPaths ps :: post ->
          Forall V2.notWithOutputPaths post ->
          LoggerV2.outputPaths s = ps /\
          (ps <> [] -> LoggerV2.outputPaths s <> [])) /\
      exists l0 w1 cfg,
        NewProduction (LoggerV2.world st) = (inr l0, w1) /\
        Build cfg true w1 = (inr (LoggerV2.zapLogger s), LoggerV2.world st') /\
        cfg_OutputPaths cfg = LoggerV2.outputPaths s) /\
  (forall level,
      cfg_OutputPaths (LoggerV1.newConfig service level None) = ["stdout"] /\
      forall ps,
        cfg_OutputPaths (LoggerV1.newConfig service level (Some ps)) = ps).
Proof.
  split; [|by intros level].
  intros opts l st st' s Hnew Hl.
  destruct (New2_success service opts st st' l s Hnew Hl)
    as (l0 & w1 & s0 & Hprod & Hres & Hbuild & _ & _ & _ & Hs).
  assert (Hout : LoggerV2.outputPaths s = LoggerV2.outputPaths s0)
    by (rewrite Hs; reflexivity).
  split; [|split].
  - intros Hnone. rewrite Hout.
    destruct (applyAll_keeps_outputPaths opts (LoggerV2.defaultLogger l0)
                Hnone) as (s' & Hs' & Hpaths).
    unfold V2.resolve in Hres. rewrite Hs' in Hres.
    injection Hres as <-. exact Hpaths.
  - intros pre ps post -> Hpost.
    assert (LoggerV2.outputPaths s = ps) as ->; [|done].
    rewrite Hout. rewrite resolve_app in Hres.
    destruct (V2.resolve pre l0) as [s1|]; [|discriminate].
    cbn [mbind option_bind V2.applyAll LoggerV2.WithOutputPaths] in Hres.
    match type of Hres with
    | context [V2.applyAll post ?s2] =>
        destruct (applyAll_keeps_outputPaths post s2 Hpost)
          as (s' & Hs' & Hpaths)
    end.
    rewrite Hs' in Hres. injection Hres as <-. exact Hpaths.
  - exists l0, w1, (LoggerV2.newConfig service s0).
    repeat split; [assumption..|]. by rewrite Hout.
Qed.

(** C7, amended: when no option is nil, [New] returns an error exactly when
    an engine initialization fails, and the error is the engine's; with an
    error the pointer is nil, without one the pointer is a live facade.
    When [zap.NewProduction()] fails [New] returns its error before it
    looks at the options.  Once that call has succeeded, a nil option makes
    [New] panic: the option loop calls it.  The positional variant has no
    options and always returns. *)
Theorem C7_New_fails_iff_engine_fails (service : string) :
  (forall (opts : list Option2) (st : State2),
      (forall err w1,
          NewProduction (LoggerV2.world st) = (inl err, w1) ->
          LoggerV2.New service opts st
          = Some (None, Some err,
                  {| LoggerV2.heap := LoggerV2.heap st;
                     LoggerV2.arrays := LoggerV2.arrays st;
                     LoggerV2.world := w1 |})) /\
      (forall l0 w1,
          NewProduction (LoggerV2.world st) = (inr l0, w1) ->
          None ∈ opts ->
          LoggerV2.New service opts st = None) /\
      (Forall is_Some opts ->
       exists p st',
         LoggerV2.New service opts st
         = Some (p, V2.initError service opts st, st') /\
         (is_Some (V2.initError service opts st) <-> p = None) /\
         (V2.initError service opts st = None ->
          exists l, p = Some l /\ is_Some (LoggerV2.heap st' !! l)))) /\
  (forall (fn : LoggerV1.GetTraceIDFn (Ctx:=Ctx)) level outputPaths
          (st : State1),
      exists p st',
        LoggerV1.New service fn level outputPaths st
        = (p, V1.initError service level outputPaths st, st') /\
        (is_Some (V1.initError service level outputPaths st) <-> p = None) /\
        (V1.initError service level outputPaths st = None ->
         exists l, p = Some l /\ is_Some (LoggerV1.heap st' !! l))).
Proof.
  split.
  - intros opts st. split; [|split].
    + intros err w1 Hprod. by rewrite New2_eq, Hprod.
    + intros l0 w1 Hprod Hnil. rewrite New2_eq, Hprod.
      unfold V2.resolve. by rewrite applyAll_nil.
    + intros Hopts. rewrite New2_eq. unfold V2.initError.
      destruct (NewProduction (LoggerV2.world st)) as [[err|l0] w1].
      { eexists _, _. split; [reflexivity|].
        split; [split; [done | eauto] | discriminate]. }
      destruct (proj2 (applyAll_is_Some opts (LoggerV2.defaultLogger l0))
                  Hopts) as [s Hs].
      unfold V2.resolve. rewrite Hs. cbn [mbind option_bind].
      destruct (Build _ true w1) as [[err|z] w2]; cbn [V2.newOutcome].
      { eexists _, _. split; [reflexivity|].
        split; [split; [done | eauto] | discriminate]. }
      eexists _, _. split; [reflexivity|]. split.
      * split; [intros [? ?]; discriminate | discriminate].
      * intros _. eexists. split; [reflexivity|].
        cbn [LoggerV2.heap]. rewrite list_lookup_middle by reflexivity.
        eauto.
  - intros fn level outputPaths st. unfold LoggerV1.New, V1.initError.
    destruct (Build _ true (LoggerV1.world st)) as [[err|z] w].
    { eexists _, _. split; [reflexivity|].
      split; [split; [done | eauto] | discriminate]. }
    eexists _, _. split; [reflexivity|]. split.
    + split; [intros [? ?]; discriminate | discriminate].
    + intros _. eexists. split; [reflexivity|].
      cbn [LoggerV1.heap]. rewrite list_lookup_middle by reflexivity. eauto.
Qed.

End Claims.

(** * The claims that depend on what the engine does *)
Section EngineClaims.
Context {Ctx : Type}.

Local Abbreviation State2 := (LoggerV2.State (Ctx:=Ctx) (Eng:=ZapModel.engine)).
Local Abbreviation Logger2 := (LoggerV2.Logger (Ctx:=Ctx) (Eng:=ZapModel.engine)).
Local Abbreviation State1 := (LoggerV1.State (Ctx:=Ctx) (Eng:=ZapModel.engine)).
Local Abbreviation Logger1 := (LoggerV1.Logger (Ctx:=Ctx) (Eng:=ZapModel.engine)).

(** C2: With on a live facade returns a new pointer to a facade whose
    persistent fields are the parent's followed by the supplied fields, with
    the parent's trace function, level and output paths (and, in the engine,
    the parent's minimum severity, sinks and initial fields); every facade
    allocated before, the parent among them, is left as it was, and so are
    the arrays.  Both variants. *)
Theorem C2_with_derives_child (l : nat) (keyVals : Go.Slice) :
  (forall (st : State2) (parent : Logger2),
      LoggerV2.heap st !! l = Some parent ->
      exists child st' s',
        LoggerV2.With l keyVals st = Some (child, st') /\
        child <> l /\
        LoggerV2.heap st' !! child = Some s' /\
        ZapModel.core_persistent (LoggerV2.zapLogger s')
        = ZapModel.core_persistent (LoggerV2.zapLogger parent)
          ++ Go.elems (LoggerV2.arrays st) keyVals /\
        LoggerV2.getTraceIDFn s' = LoggerV2.getTraceIDFn parent /\
        LoggerV2.level s' = LoggerV2.level parent /\
        LoggerV2.outputPaths s' = LoggerV2.outputPaths parent /\
        ZapModel.core_level (LoggerV2.zapLogger s')
        = ZapModel.core_level (LoggerV2.zapLogger parent) /\
        ZapModel.core_out (LoggerV2.zapLogger s')
        = ZapModel.core_out (LoggerV2.zapLogger parent) /\
        ZapModel.core_initial (LoggerV2.zapLogger s')
        = ZapModel.core_initial (LoggerV2.zapLogger parent) /\
        LoggerV2.heap st' !! l = Some parent /\
        (forall i p, LoggerV2.heap st !! i = Some p ->
                     LoggerV2.heap st' !! i = Some p) /\
        LoggerV2.arrays st' = LoggerV2.arrays st) /\
  (forall (st : State1) (parent : Logger1),
      LoggerV1.heap st !! l = Some parent ->
      exists child st' s',
        LoggerV1.With l keyVals st = Some (child, st') /\
        child <> l /\
        LoggerV1.heap st' !! child = Some s' /\
        ZapModel.core_persistent (LoggerV1.zapLogger s')
        = ZapModel.core_persistent (LoggerV1.zapLogger parent)
          ++ Go.elems (LoggerV1.arrays st) keyVals /\
        LoggerV1.getTraceID s' = LoggerV1.getTraceID parent /\
        ZapModel.core_level (LoggerV1.zapLogger s')
        = ZapModel.core_level (LoggerV1.zapLogger parent) /\
        ZapModel.core_out (LoggerV1.zapLogger s')
        = ZapModel.core_out (LoggerV1.zapLogger parent) /\
        ZapModel.core_initial (LoggerV1.zapLogger s')
        = ZapModel.core_initial (LoggerV1.zapLogger parent) /\
        LoggerV1.heap st' !! l = Some parent /\
        (forall i p, LoggerV1.heap st !! i = Some p ->
                     LoggerV1.heap st' !! i = Some p) /\
        LoggerV1.arrays st' = LoggerV1.arrays st).
Proof.
  split; intros st parent Hl.
  - rewrite (With2_eq l keyVals st parent Hl).
    eexists _, _, _. split; [reflexivity|].
    apply lookup_lt_Some in Hl as Hlt.
    split; [lia|]. cbn [LoggerV2.heap LoggerV2.arrays].
    split; [by apply list_lookup_middle|].
    repeat split; try reflexivity.
    + by apply lookup_app_l_Some.
    + intros i p Hi. by apply lookup_app_l_Some.
  - rewrite (With1_eq l keyVals st parent Hl).
    eexists _, _, _. split; [reflexivity|].
    apply lookup_lt_Some in Hl as Hlt.
    split; [lia|]. cbn [LoggerV1.heap LoggerV1.arrays].
    split; [by apply list_lookup_middle|].
    repeat split; try reflexivity.
    + by apply lookup_app_l_Some.
    + intros i p Hi. by apply lookup_app_l_Some.
Qed.

(** *** The level gate and the sampler of the engine *)


Lemma log_below lvl z msg keyVals w :
  lvl < ZapModel.core_level z -> ZapModel.log lvl z msg keyVals w = w.
Proof.
  intros Hlt. unfold ZapModel.log.
  destruct (Z.leb_spec (ZapModel.core_level z) lvl); [lia | reflexivity].
Qed.

Lemma log_sampled lvl z sm msg keyVals w :
  ZapModel.core_level z <= lvl ->
  ZapModel.core_sampler z = Some sm ->
  ZapModel.log lvl z msg keyVals w
  = {| ZapModel.unopenable := ZapModel.unopenable w;
       ZapModel.sync_errors := ZapModel.sync_errors w;
       ZapModel.written :=
         ZapModel.written w ++
         (if ZapModel.passes sm (ZapModel.nextCount sm lvl msg w)
          then map (fun p => (p, {| ZapModel.entry_level := lvl;
                                    ZapModel.entry_msg := msg;
                                    ZapModel.entry_initial :=
                                      ZapModel.core_initial z;
                                    ZapModel.entry_persistent :=
                                      ZapModel.core_persistent z;
                                    ZapModel.entry_fields := keyVals |}))
                 (ZapModel.core_out z)
          else []);
       ZapModel.now := ZapModel.now w;
       ZapModel.counters :=
         alter (insert (ZapModel.key lvl msg)
                  (ZapModel.incCheckReset (ZapModel.now w)
                     (ZapModel.counterAt sm lvl msg w)).1)
           (ZapModel.sampler_counts sm) (ZapModel.counters w) |}.
Proof.
  intros Hle Hsm. unfold ZapModel.log. rewrite Hsm.
  destruct (Z.leb_spec (ZapModel.core_level z) lvl); [reflexivity | lia].
Qed.




(** A counter that has counted nothing yet counts 1, whatever the time. *)
Lemma incCheckReset_zero t :
  (ZapModel.incCheckReset t ZapModel.zeroCounter).2 = 1.
Proof. unfold ZapModel.incCheckReset. by destruct (t <? _). Qed.


(** A record leaves the counters of the other levels and classes alone. *)
Lemma counterAt_log_ne lvl z sm msg keyVals w lvl' msg' :
  ZapModel.core_sampler z = Some sm ->
  ZapModel.key lvl' msg' <> ZapModel.key lvl msg ->
  ZapModel.counterAt sm lvl' msg' (ZapModel.log lvl z msg keyVals w)
  = ZapModel.counterAt sm lvl' msg' w.
Proof.
  intros Hsm Hne. unfold ZapModel.log.
  destruct (ZapModel.core_level z <=? lvl); [|reflexivity].
  rewrite Hsm. unfold ZapModel.counterAt, ZapModel.check.
  cbn [ZapModel.counters]. rewrite list_lookup_alter_eq.
  destruct (ZapModel.counters w !! ZapModel.sampler_counts sm) as [table|];
    [|reflexivity].
  cbn [fmap option_fmap option_map from_option id].
  by rewrite lookup_insert_ne.
Qed.


Lemma build_handle cfg caller w z w' :
  ZapModel.build cfg caller w = (inr z, w') ->
  ZapModel.core_level z = cfg_Level cfg /\
  ZapModel.core_out z = cfg_OutputPaths cfg /\
  ZapModel.core_persistent z = [] /\
  ZapModel.core_initial z = cfg_InitialFields cfg /\
  ZapModel.core_sampler z
  = (fun sc => ZapModel.newSampler sc w) <$> cfg_Sampling cfg /\
  ZapModel.unopenable w' = ZapModel.unopenable w /\
  ZapModel.written w' = ZapModel.written w /\
  ZapModel.counters w'
  = ZapModel.counters w ++
    match cfg_Sampling cfg with Some _ => [∅] | None => [] end.
Proof.
  unfold ZapModel.build.
  destruct (ZapModel.openSinks w (cfg_OutputPaths cfg)); [discriminate|].
  intros [= <- <-]. by cbn.
Qed.

Lemma build_opens cfg caller w :
  Forall (fun p => p ∉ ZapModel.unopenable w) (cfg_OutputPaths cfg) ->
  exists z w', ZapModel.build cfg caller w = (inr z, w').
Proof.
  intros Hopen. unfold ZapModel.build, ZapModel.openSinks.
  assert (filter (fun p => p ∈ ZapModel.unopenable w) (cfg_OutputPaths cfg)
          = []) as ->; [|by eexists _, _].
  induction Hopen as [|p ps Hp _ IH]; [reflexivity|].
  by rewrite filter_cons_False.
Qed.

(** The table of a sampler that was just built has counted nothing. *)
Lemma counterAt_fresh sm lvl msg w cs :
  ZapModel.counters w = cs ++ [∅] ->
  ZapModel.sampler_counts sm = List.length cs ->
  ZapModel.counterAt sm lvl msg w = ZapModel.zeroCounter.
Proof.
  intros Hcs Hid. unfold ZapModel.counterAt.
  rewrite Hcs, Hid, list_lookup_middle by reflexivity. reflexivity.
Qed.

(** The first record of its level and class is written to every sink. *)
Lemma log_first lvl z sm msg keyVals w :
  ZapModel.core_level z <= lvl ->
  ZapModel.core_sampler z = Some sm ->
  1 <= ZapModel.sampler_first sm ->
  ZapModel.counterAt sm lvl msg w = ZapModel.zeroCounter ->
  ZapModel.written (ZapModel.log lvl z msg keyVals w)
  = ZapModel.written w ++
    map (fun p => (p, {| ZapModel.entry_level := lvl;
                         ZapModel.entry_msg := msg;
                         ZapModel.entry_initial := ZapModel.core_initial z;
                         ZapModel.entry_persistent :=
                           ZapModel.core_persistent z;
                         ZapModel.entry_fields := keyVals |}))
      (ZapModel.core_out z).
Proof.
  intros Hle Hsm Hfirst Hzero. rewrite (log_sampled _ _ sm) by done.
  cbn [ZapModel.written]. unfold ZapModel.nextCount.
  rewrite Hzero, incCheckReset_zero. unfold ZapModel.passes.
  destruct (Z.ltb_spec (ZapModel.sampler_first sm) 1); [lia | reflexivity].
Qed.

(** What the calls of the usage examples write on a new handle at level
    Info: the Info record and the Error record. *)
Lemma exampleCalls_written z sm w :
  ZapModel.core_level z = InfoLevel ->
  ZapModel.core_sampler z = Some sm ->
  1 <= ZapModel.sampler_first sm ->
  (forall lvl msg, ZapModel.counterAt sm lvl msg w = ZapModel.zeroCounter) ->
  ZapModel.written (exampleCalls (Eng:=ZapModel.engine) z w)
  = (ZapModel.written w ++
     map (fun p => (p, {| ZapModel.entry_level := InfoLevel;
                          ZapModel.entry_msg := "Hello from logger";
                          ZapModel.entry_initial := ZapModel.core_initial z;
                          ZapModel.entry_persistent :=
                            ZapModel.core_persistent z;
                          ZapModel.entry_fields :=
                            [AString "key"; AString "value";
                             AString "trace_id"; AString "fake-trace-id"] |}))
       (ZapModel.core_out z)) ++
    map (fun p => (p, {| ZapModel.entry_level := ErrorLevel;
                         ZapModel.entry_msg := "An error occurred";
                         ZapModel.entry_initial := ZapModel.core_initial z;
                         ZapModel.entry_persistent :=
                           ZapModel.core_persistent z;
                         ZapModel.entry_fields :=
                           [AString "code"; AInt 500;
                            AString "trace_id"; AString "fake-trace-id"] |}))
      (ZapModel.core_out z).
Proof.
  intros Hlevel Hsm Hfirst Hzero. unfold exampleCalls.
  cbn [Infow Errorw Debugw SugaredWith SugaredSync ZapModel.engine
       ZapModel.with_ ZapModel.sync fst snd app].
  rewrite log_below by (cbn [ZapModel.core_level]; rewrite Hlevel; done).
  rewrite (log_first _ _ sm); [|by rewrite Hlevel|done..| ].
  - rewrite (log_first _ _ sm); [done|by rewrite Hlevel|done..].
  - rewrite counterAt_log_ne by done. apply Hzero.
Qed.


End EngineClaims.

(** * Concrete runs *)
Section Runs.
Import Examples.

Local Ltac wf_slice := split; cbn; lia.

(** The scenario of the specification: construction succeeds and leaves the
    facade [facade2] at pointer 0. *)
Example scenario_New :
  LoggerV2.New "svc" scenarioOpts st2 = Some (Some 0%nat, None, stFacade2).
Proof. reflexivity. Qed.

(** The record the scenario's Info call writes. *)
Example scenario_Info :
  ZapModel.written
    (LoggerV2.world
       (default stFacade2 (LoggerV2.Info 0%nat ctxTraced "hello" kv stFacade2)))
  = [("mem://buf",
      {| ZapModel.entry_level := InfoLevel;
         ZapModel.entry_msg := "hello";
         ZapModel.entry_initial := {[ "service" := AString "svc" ]};
         ZapModel.entry_persistent := [];
         ZapModel.entry_fields :=
           [AString "k"; AInt 1; AString "trace_id"; AString "abc123"] |})].
Proof. vm_compute. reflexivity. Qed.

(** A call with [base[:2]...]: the record has the two fields and the trace
    pair, and the caller's array [base] has lost its last two cells. *)
Example scenario_spare_capacity :
  LoggerV2.Info 0%nat ctxTraced "hello" basePrefix stFacade2
  = Some (V2.delegated CInfo facade2 "hello"
            [AString "a"; AInt 1; AString "trace_id"; AString "abc123"]
            memOverwritten stFacade2) /\
  Go.elems mem0 base = [AString "a"; AInt 1; AString "b"; AInt 2] /\
  Go.elems memOverwritten base
  = [AString "a"; AInt 1; AString "trace_id"; AString "abc123"].
Proof. repeat split. Qed.

(** A call without fields, [Info(ctx, "hello")]: the nil slice has no
    capacity, so the pair goes to a new array. *)
Example scenario_no_fields :
  LoggerV2.Info 0%nat ctxTraced "hello" Go.nilSlice stFacade2
  = Some (V2.delegated CInfo facade2 "hello"
            [AString "trace_id"; AString "abc123"]
            (mem0 ++ [[AString "trace_id"; AString "abc123"]]) stFacade2).
Proof. reflexivity. Qed.

(** [TestLogger] passes: no error from [Sync], and the three records carry
    the service, the trace id, their level and message, and their fields;
    the record of the sub-logger carries its component. *)
Example TestLogger_run :
  testLogger
  = Some (None,
          [ testEntry InfoLevel "Info message" []
              [AString "userID"; AInt 1234];
            testEntry ErrorLevel "Error message" []
              [AString "errCode"; AInt 500];
            testEntry DebugLevel "Debugging message"
              [AString "component"; AString "signup-flow"]
              [AString "extra"; ABool true] ]).
Proof. vm_compute. reflexivity. Qed.

(** The scenario facade, a traced context and an untraced one. *)
Lemma C1_witness :
  V2.call CInfo 0%nat ctxTraced "hello" kv stFacade2
  = Some (V2.delegated CInfo facade2 "hello"
            [AString "k"; AInt 1; AString "trace_id"; AString "abc123"]
            memTraced stFacade2) /\
  V2.call CInfo 0%nat ctxPlain "hello" kv stFacade2
  = Some (V2.delegated CInfo facade2 "hello" [AString "k"; AInt 1]
            mem0 stFacade2).
Proof.
  assert (Hwf : Go.wf mem0 kv) by wf_slice.
  split.
  - refine (proj1 (proj1 (C1_trace_id_appended CInfo traceFn ctxTraced "hello"
                            kv)
                     0%nat stFacade2 facade2 eq_refl eq_refl Hwf) _).
    vm_compute. discriminate.
  - refine (proj2 (proj1 (C1_trace_id_appended CInfo traceFn ctxPlain "hello"
                            kv)
                     0%nat stFacade2 facade2 eq_refl eq_refl Hwf) _).
    vm_compute. reflexivity.
Defined.

(** A child of the scenario facade with one persistent pair. *)
Lemma C2_witness :
  exists child st' s',
    LoggerV2.With 0%nat component stFacade2 = Some (child, st') /\
    LoggerV2.heap st' !! child = Some s' /\
    ZapModel.core_persistent (LoggerV2.zapLogger s')
    = [AString "component"; AString "x"] /\
    LoggerV2.heap st' !! 0%nat = Some facade2.
Proof.
  destruct (proj1 (C2_with_derives_child 0%nat component)
              stFacade2 facade2 eq_refl)
    as (child & st' & s' & Hwith & _ & Hchild & Hfields & _ & _ & _ & _ & _
        & _ & Hparent & _).
  exists child, st', s'. repeat split; assumption.
Defined.

(** Three level options in a row: the third one decides. *)
Lemma C3_witness :
  exists s,
    V2.resolve manyLevels productionHandle = Some s /\
    LoggerV2.level s = DebugLevel /\
    cfg_Level (LoggerV2.newConfig "svc" s) = DebugLevel.
Proof.
  destruct (C3_options_in_order_last_wins "svc" manyLevels st2
              productionHandle wNew1 eq_refl)
    as (_ & _ & _ & _ & Hlevel & _).
  eexists. split; [reflexivity|].
  apply (Hlevel [LoggerV2.WithLevel ErrorLevel; LoggerV2.WithLevel InfoLevel]
           DebugLevel [LoggerV2.WithOutputPaths ["mem://buf"]] _ eq_refl);
    [|reflexivity].
  constructor; [|constructor].
  right. eexists. reflexivity.
Defined.


(** The scenario facade keeps the one sink it was given. *)
Lemma C6_witness :
  LoggerV2.outputPaths facade2 = ["mem://buf"] /\
  LoggerV2.outputPaths facade2 <> [].
Proof.
  destruct (proj1 (C6_sink_list_after_construction (Ctx:=Ctx)
                     (Eng:=ZapModel.engine) "svc")
              scenarioOpts 0%nat st2 stFacade2 facade2 eq_refl eq_refl)
    as (_ & Hlast & _).
  destruct (Hlast [LoggerV2.WithTraceID (Some traceFn);
                   LoggerV2.WithLevel DebugLevel]
              ["mem://buf"] [] eq_refl (Forall_nil_2 _)) as [Hout Hne].
  split; [exact Hout | apply Hne; discriminate].
Defined.

(** A sink that cannot be opened: the engine's error and a nil pointer.
    A nil option after an option: a panic. *)
Lemma C7_witness :
  (exists st',
      LoggerV2.New "svc" deniedOpts st2
      = Some (None, Some "couldn't open sink /proc/denied.log", st')) /\
  LoggerV2.New "svc" nilOpts st2 = None.
Proof.
  destruct (proj1 (C7_New_fails_iff_engine_fails (Ctx:=Ctx)
                     (Eng:=ZapModel.engine) "svc") deniedOpts st2)
    as (_ & _ & Hreturns).
  destruct (proj1 (C7_New_fails_iff_engine_fails (Ctx:=Ctx)
                     (Eng:=ZapModel.engine) "svc") nilOpts st2)
    as (_ & Hpanics & _).
  split.
  - destruct Hreturns as (p & st' & Hnew & Hiff & _).
    { repeat constructor. by eexists. }
    exists st'. rewrite Hnew.
    rewrite (proj1 Hiff (ex_intro _ "couldn't open sink /proc/denied.log"
                           eq_refl)).
    reflexivity.
  - apply (Hpanics productionHandle wNew1 eq_refl).
    by apply (list_elem_of_lookup_2 _ 1%nat).
Defined.

(** An Error call with three fields, the first key an integer. *)
Lemma C8_witness :
  exists suffix m,
    V2.call CError 0%nat ctxPlain "boom" oddFields stFacade2
    = Some (V2.delegated CError facade2 "boom"
              ([AInt 7; ABool true; AString "dangling"] ++ suffix) m
              stFacade2).
Proof.
  assert (Hwf : Go.wf mem0 oddFields) by wf_slice.
  destruct (proj1 (C8_log_calls_never_fail CError 0%nat ctxPlain "boom"
                     oddFields) stFacade2 facade2 eq_refl Hwf)
    as (suffix & m & _ & Hcall).
  exists suffix, m. exact Hcall.
Defined.

(** A flush that fails on standard output, and one that succeeds. *)
Lemma C9_witness :
  LoggerV2.Sync 0%nat stDefault2
  = Some (Some "sync /dev/stdout: invalid argument", stDefault2) /\
  LoggerV2.Sync 0%nat stFacade2 = Some (None, stFacade2).
Proof.
  split.
  - apply (proj1 (C9_sync_returns_engine_error 0%nat)
             stDefault2 defaultFacade2
             (Some "sync /dev/stdout: invalid argument") wNew2
             eq_refl eq_refl).
  - apply (proj1 (C9_sync_returns_engine_error 0%nat)
             stFacade2 facade2 None wNew2 eq_refl eq_refl).
Defined.

(** After the traced call with [base[:2]...] the facade is as it was and
    the caller's slice still shows its two elements. *)
Lemma C10_witness :
  LoggerV2.heap
    (V2.delegated CInfo facade2 "hello"
       [AString "a"; AInt 1; AString "trace_id"; AString "abc123"]
       memOverwritten stFacade2)
  = [facade2] /\
  Go.elems memOverwritten basePrefix = [AString "a"; AInt 1].
Proof.
  assert (Hwf : Go.wf mem0 basePrefix) by wf_slice.
  destruct (proj1 (C10_log_calls_keep_facade CInfo 0%nat ctxTraced "hello"
                     basePrefix)
              stFacade2
              (V2.delegated CInfo facade2 "hello"
                 [AString "a"; AInt 1; AString "trace_id"; AString "abc123"]
                 memOverwritten stFacade2)
              eq_refl Hwf)
    as (Hheap & _ & Helems & _).
  split; [exact Hheap | exact Helems].
Defined.

(** A nil option among the options: [New] does not return. *)
Lemma C7_counterexample : ~ Stated.constructionReturns "svc" nilOpts st2.
Proof. intros (p & st' & Hnew). discriminate Hnew. Qed.

(** Construction succeeds with an empty sink list, in both variants. *)
Lemma C6_counterexample :
  ~ Stated.sinksNonEmpty2 "svc" noSinkOpts st2 /\
  ~ Stated.sinksNonEmpty1 "svc" None InfoLevel (Some []) st1.
Proof.
  split; intros Hclaim.
  - exact (Hclaim 0%nat stNoSink2 noSinkFacade2 eq_refl eq_refl eq_refl).
  - exact (Hclaim 0%nat stNoSink1 eq_refl eq_refl).
Qed.

(** A traced call with [base[:2]...] writes the pair into the caller's
    array: array 2 no longer has the cells it had. *)
Lemma C10_counterexample :
  ~ Stated.fieldsCallLocal CInfo 0%nat ctxTraced "hello" basePrefix stFacade2.
Proof.
  intros Hclaim.
  destruct (Hclaim
              (V2.delegated CInfo facade2 "hello"
                 [AString "a"; AInt 1; AString "trace_id"; AString "abc123"]
                 memOverwritten stFacade2)
              eq_refl) as [_ Harrays].
  specialize (Harrays 2%nat [AString "a"; AInt 1; AString "b"; AInt 2]
                eq_refl).
  discriminate Harrays.
Qed.

End Runs.

(** * Further properties of the facade, for every engine *)
Section MoreFacts.
Context {Ctx : Type} {Eng : Engine}.

Local Abbreviation Logger2 := (LoggerV2.Logger (Ctx:=Ctx) (Eng:=Eng)).
Local Abbreviation State2 := (LoggerV2.State (Ctx:=Ctx) (Eng:=Eng)).
Local Abbreviation Option2 := (LoggerV2.Option (Ctx:=Ctx) (Eng:=Eng)).
Local Abbreviation Logger1 := (LoggerV1.Logger (Ctx:=Ctx) (Eng:=Eng)).
Local Abbreviation State1 := (LoggerV1.State (Ctx:=Ctx) (Eng:=Eng)).

(** *** What [append] can write *)

Lemma append_footprint m s xs a i :
  (a < List.length m)%nat ->
  a <> Go.array s \/ (i < Go.off s + Go.len s)%nat \/
  (Go.off s + Go.len s + List.length xs <= i)%nat ->
  Go.cells (Go.append m s xs).2 a !! i = Go.cells m a !! i.
Proof.
  intros Hlt Hout. unfold Go.append. cbn zeta.
  destruct (Go.len s + List.length xs <=? Go.cap s)%nat; cbn [snd].
  - destruct (decide (Go.array s = a)) as [<-|Hne].
    + rewrite cells_alter by apply list_inserts_nil.
      destruct Hout as [Hne|[Hlow|Hhigh]]; [done | |].
      * by apply list_lookup_inserts_lt.
      * by apply list_lookup_inserts_ge.
    + by rewrite cells_alter_ne.
  - by rewrite cells_app_l.
Qed.

Lemma append_no_capacity m s xs a :
  (Go.cap s < Go.len s + List.length xs)%nat ->
  (a < List.length m)%nat ->
  (Go.append m s xs).2 !! a = m !! a.
Proof.
  intros Hcap Hlt. unfold Go.append. cbn zeta.
  destruct (Nat.leb_spec (Go.len s + List.length xs) (Go.cap s)); [lia|].
  cbn [snd]. by rewrite lookup_app_l.
Qed.

Lemma append_arrays_length m s xs :
  (List.length m <= List.length (Go.append m s xs).2)%nat.
Proof.
  unfold Go.append. cbn zeta.
  destruct (Go.len s + List.length xs <=? Go.cap s)%nat; cbn [snd].
  - by rewrite length_alter.
  - rewrite length_app. lia.
Qed.

(** *** The trace block reads the trace function only *)

Lemma appendTraceID2_same_fn (s s' : Logger2) ctx keyVals m :
  LoggerV2.getTraceIDFn s = LoggerV2.getTraceIDFn s' ->
  LoggerV2.appendTraceID s ctx keyVals m
  = LoggerV2.appendTraceID s' ctx keyVals m.
Proof. unfold LoggerV2.appendTraceID. by intros ->. Qed.

Lemma appendTraceID_variants (s1 : Logger1) (s2 : Logger2) ctx keyVals m :
  LoggerV1.getTraceID s1 = LoggerV2.getTraceIDFn s2 ->
  LoggerV1.appendTraceID s1 ctx keyVals m
  = LoggerV2.appendTraceID s2 ctx keyVals m.
Proof.
  unfold LoggerV1.appendTraceID, LoggerV2.appendTraceID. by intros ->.
Qed.

Lemma call2_dead (c : Call) l ctx msg keyVals (st : State2) :
  LoggerV2.heap st !! l = None -> V2.call c l ctx msg keyVals st = None.
Proof.
  intros Hl.
  destruct c; cbn [V2.call];
    unfold LoggerV2.Info, LoggerV2.Error, LoggerV2.Debug; by rewrite Hl.
Qed.

(** *** Every operation extends the heap of facades *)

Lemma New2_heap service (opts : list Option2) (st : State2) r :
  LoggerV2.New service opts st = Some r ->
  exists k, LoggerV2.heap r.2 = LoggerV2.heap st ++ k.
Proof.
  rewrite New2_eq. intros Hnew.
  destruct (NewProduction (LoggerV2.world st)) as [[err|l0] w1].
  { injection Hnew as <-. exists []. by rewrite app_nil_r. }
  destruct (V2.resolve opts l0) as [s|]; [|discriminate].
  cbn [mbind option_bind] in Hnew. injection Hnew as <-.
  destruct (Build _ true w1) as [[err|z] w2]; cbn; eauto.
Qed.

Lemma New1_heap service fn level outputPaths (st : State1) :
  exists k,
    LoggerV1.heap (LoggerV1.New service fn level outputPaths st).2
    = LoggerV1.heap st ++ k.
Proof.
  unfold LoggerV1.New.
  destruct (Build _ true (LoggerV1.world st)) as [[err|z] w]; cbn.
  - exists []. by rewrite app_nil_r.
  - eauto.
Qed.

Lemma step2_heap (o : Run2.Op) (st st' : State2) :
  Run2.step o st = Some st' ->
  exists k, LoggerV2.heap st' = LoggerV2.heap st ++ k.
Proof.
  destruct o as [service opts|c l ctx msg keyVals|l keyVals|l];
    cbn [Run2.step]; intros Hstep.
  - destruct (LoggerV2.New service opts st) as [r|] eqn:Hnew; [|done].
    injection Hstep as <-. by eapply New2_heap.
  - destruct (call2_inv c l ctx msg keyVals st st' Hstep) as [s Hl].
    rewrite (call2_eq c l ctx msg keyVals st s Hl) in Hstep.
    injection Hstep as <-. exists []. by rewrite app_nil_r.
  - destruct (LoggerV2.heap st !! l) as [s|] eqn:Hl.
    + rewrite (With2_eq l keyVals st s Hl) in Hstep.
      injection Hstep as <-. cbn. eauto.
    + unfold LoggerV2.With in Hstep. by rewrite Hl in Hstep.
  - destruct (LoggerV2.heap st !! l) as [s|] eqn:Hl.
    + rewrite (Sync2_eq l st s Hl) in Hstep.
      injection Hstep as <-. exists []. by rewrite app_nil_r.
    + unfold LoggerV2.Sync in Hstep. by rewrite Hl in Hstep.
Qed.

Lemma step1_heap (o : Run1.Op) (st st' : State1) :
  Run1.step o st = Some st' ->
  exists k, LoggerV1.heap st' = LoggerV1.heap st ++ k.
Proof.
  destruct o as [service fn level ps|c l ctx msg keyVals|l keyVals|l];
    cbn [Run1.step]; intros Hstep.
  - injection Hstep as <-. apply New1_heap.
  - destruct (call1_inv c l ctx msg keyVals st st' Hstep) as [s Hl].
    rewrite (call1_eq c l ctx msg keyVals st s Hl) in Hstep.
    injection Hstep as <-. exists []. by rewrite app_nil_r.
  - destruct (LoggerV1.heap st !! l) as [s|] eqn:Hl.
    + rewrite (With1_eq l keyVals st s Hl) in Hstep.
      injection Hstep as <-. cbn. eauto.
    + unfold LoggerV1.With in Hstep. by rewrite Hl in Hstep.
  - destruct (LoggerV1.heap st !! l) as [s|] eqn:Hl.
    + rewrite (Sync1_eq l st s Hl) in Hstep.
      injection Hstep as <-. exists []. by rewrite app_nil_r.
    + unfold LoggerV1.Sync in Hstep. by rewrite Hl in Hstep.
Qed.

Lemma run2_heap (ops : list Run2.Op) (st st' : State2) :
  Run2.run ops st = Some st' ->
  exists k, LoggerV2.heap st' = LoggerV2.heap st ++ k.
Proof.
  revert st. induction ops as [|o ops IH]; intros st Hrun; cbn in Hrun.
  - injection Hrun as <-. exists []. by rewrite app_nil_r.
  - destruct (Run2.step o st) as [st1|] eqn:Hstep; [|done].
    cbn in Hrun. apply step2_heap in Hstep as [k1 Hk1].
    apply IH in Hrun as [k2 Hk2].
    exists (k1 ++ k2). by rewrite Hk2, Hk1, app_assoc.
Qed.

Lemma run1_heap (ops : list Run1.Op) (st st' : State1) :
  Run1.run ops st = Some st' ->
  exists k, LoggerV1.heap st' = LoggerV1.heap st ++ k.
Proof.
  revert st. induction ops as [|o ops IH]; intros st Hrun; cbn in Hrun.
  - injection Hrun as <-. exists []. by rewrite app_nil_r.
  - destruct (Run1.step o st) as [st1|] eqn:Hstep; [|done].
    cbn in Hrun. apply step1_heap in Hstep as [k1 Hk1].
    apply IH in Hrun as [k2 Hk2].
    exists (k1 ++ k2). by rewrite Hk2, Hk1, app_assoc.
Qed.

(** X4: whatever sequence of constructions, log calls, derivations and
    flushes runs without a panic, the heap of facades only grows at its
    end: every facade that existed before is still there, at the same
    pointer, with the same engine handle, trace function, level and output
    paths.  Both variants. *)
Theorem X4_facades_are_immutable :
  (forall (ops : list Run2.Op) (st st' : State2),
      Run2.run ops st = Some st' ->
      (exists k, LoggerV2.heap st' = LoggerV2.heap st ++ k) /\
      forall l s, LoggerV2.heap st !! l = Some s ->
                  LoggerV2.heap st' !! l = Some s) /\
  (forall (ops : list Run1.Op) (st st' : State1),
      Run1.run ops st = Some st' ->
      (exists k, LoggerV1.heap st' = LoggerV1.heap st ++ k) /\
      forall l s, LoggerV1.heap st !! l = Some s ->
                  LoggerV1.heap st' !! l = Some s).
Proof.
  split.
  - intros ops st st' Hrun. split; [by eapply run2_heap|].
    intros l s Hl. destruct (run2_heap ops st st' Hrun) as [k ->].
    by apply lookup_app_l_Some.
  - intros ops st st' Hrun. split; [by eapply run1_heap|].
    intros l s Hl. destruct (run1_heap ops st st' Hrun) as [k ->].
    by apply lookup_app_l_Some.
Qed.

(** *** What a successful [New] returns *)

Lemma New2_live service (opts : list Option2) (st st' : State2) l :
  LoggerV2.New service opts st = Some (Some l, None, st') ->
  exists s, LoggerV2.heap st' !! l = Some s.
Proof.
  rewrite New2_eq. intros Hnew.
  destruct (NewProduction (LoggerV2.world st)) as [[err|l0] w1]; [done|].
  destruct (V2.resolve opts l0) as [s|]; [|discriminate].
  cbn [mbind option_bind] in Hnew. injection Hnew as Hnew.
  destruct (Build _ true w1) as [[err|z] w2]; cbn [V2.newOutcome] in Hnew;
    [done|].
  injection Hnew as <- <-. cbn [LoggerV2.heap].
  rewrite list_lookup_middle by reflexivity. eauto.
Qed.

Lemma New1_success service fn level outputPaths (st st' : State1) l :
  LoggerV1.New service fn level outputPaths st = (Some l, None, st') ->
  exists z w,
    Build (LoggerV1.newConfig service level outputPaths) true
      (LoggerV1.world st) = (inr z, w) /\
    l = List.length (LoggerV1.heap st) /\
    st' = {| LoggerV1.heap :=
               LoggerV1.heap st ++
               [ {| LoggerV1.zapLogger := z; LoggerV1.getTraceID := fn |} ];
             LoggerV1.arrays := LoggerV1.arrays st;
             LoggerV1.world := w |}.
Proof.
  unfold LoggerV1.New.
  destruct (Build _ true (LoggerV1.world st)) as [[err|z] w]; [done|].
  intros [= <- <-]. eauto.
Qed.

(** X1: a facade built with a nil trace function ([WithTraceID(nil)] as
    the last trace option, or [fn = nil] in the positional variant) does not
    panic on it: every log call hands the caller's fields to the engine as
    they are and writes no array. *)
Theorem X1_nil_trace_function (c : Call) (ctx : Ctx) (msg : string)
    (keyVals : Go.Slice) :
  (forall service (pre post : list Option2) (st st1 : State2) l,
      LoggerV2.New service (pre ++ LoggerV2.WithTraceID None :: post) st
      = Some (Some l, None, st1) ->
      Forall V2.notWithTraceID post ->
      exists s,
        LoggerV2.heap st1 !! l = Some s /\
        V2.call c l ctx msg keyVals st1
        = Some (V2.delegated c s msg
                  (Go.elems (LoggerV2.arrays st1) keyVals)
                  (LoggerV2.arrays st1) st1)) /\
  (forall service level outputPaths (st st1 : State1) l,
      LoggerV1.New service None level outputPaths st = (Some l, None, st1) ->
      exists s,
        LoggerV1.heap st1 !! l = Some s /\
        V1.call c l ctx msg keyVals st1
        = Some (V1.delegated c s msg
                  (Go.elems (LoggerV1.arrays st1) keyVals)
                  (LoggerV1.arrays st1) st1)).
Proof.
  split.
  - intros service pre post st st1 l Hnew Hpost.
    destruct (New2_live _ _ _ _ _ Hnew) as [s Hl]. exists s. split; [done|].
    destruct (New2_success _ _ _ _ _ _ Hnew Hl)
      as (l0 & w1 & s0 & _ & Hres & _ & _ & _ & _ & Hs).
    rewrite (call2_eq c l ctx msg keyVals st1 s Hl).
    assert (Hnil : LoggerV2.getTraceIDFn s = None).
    { rewrite Hs. cbn [LoggerV2.setZapLogger LoggerV2.getTraceIDFn].
      rewrite resolve_app in Hres.
      destruct (V2.resolve pre l0) as [s1|]; [|discriminate].
      cbn [mbind option_bind V2.applyAll LoggerV2.WithTraceID] in Hres.
      match type of Hres with
      | context [V2.applyAll post ?s2] =>
          destruct (applyAll_keeps_getTraceIDFn post s2 Hpost)
            as (s' & Hs' & Hfn)
      end.
      rewrite Hs' in Hres. injection Hres as <-. exact Hfn. }
    unfold LoggerV2.appendTraceID. by rewrite Hnil.
  - intros service level outputPaths st st1 l Hnew.
    destruct (New1_success _ _ _ _ _ _ _ Hnew) as (z & w & _ & -> & ->).
    eexists. cbn [LoggerV1.heap].
    split; [by apply list_lookup_middle|].
    erewrite call1_eq by by apply list_lookup_middle.
    reflexivity.
Qed.

(** *** Running an option on a facade that exists *)

Lemma call2_invoke (o : Option2) l' (c : Call) l ctx msg keyVals (st : State2) :
  l <> l' \/
  (forall f s, o = Some f ->
               LoggerV2.zapLogger (f s) = LoggerV2.zapLogger s /\
               LoggerV2.getTraceIDFn (f s) = LoggerV2.getTraceIDFn s) ->
  (Run2.invoke o l' st ≫= V2.call c l ctx msg keyVals)
  = (V2.call c l ctx msg keyVals st ≫= Run2.invoke o l').
Proof.
  intros Hsafe. destruct o as [f|];
    [|by destruct (V2.call c l ctx msg keyVals st)].
  cbn [Run2.invoke mbind option_bind].
  destruct (LoggerV2.heap st !! l) as [s|] eqn:Hl.
  - match goal with
    | |- V2.call c l ctx msg keyVals ?sto = _ =>
        assert (exists s', LoggerV2.heap sto !! l = Some s' /\
                           LoggerV2.zapLogger s' = LoggerV2.zapLogger s /\
                           LoggerV2.getTraceIDFn s' = LoggerV2.getTraceIDFn s)
          as (s' & Hl' & Hz & Hfn)
    end.
    { cbn [LoggerV2.heap]. rewrite list_lookup_alter.
      case_decide as Heq; [subst l'|]; rewrite Hl; [|by eauto].
      destruct Hsafe as [Hne|Hsame]; [congruence|].
      exists (f s). split; [done|]. by apply Hsame. }
    rewrite (call2_eq c l ctx msg keyVals _ s' Hl'),
      (call2_eq c l ctx msg keyVals st s Hl).
    cbn [mbind option_bind]. f_equal.
    unfold V2.delegated.
    cbn [LoggerV2.heap LoggerV2.arrays LoggerV2.world].
    by rewrite Hz, (appendTraceID2_same_fn s' s _ _ _ Hfn).
  - rewrite (call2_dead c l ctx msg keyVals st Hl).
    apply call2_dead. cbn [LoggerV2.heap].
    rewrite list_lookup_alter. case_decide; [subst l'|]; by rewrite Hl.
Qed.

Lemma Sync2_invoke (o : Option2) l' l (st : State2) :
  l <> l' \/
  (forall f s, o = Some f ->
               LoggerV2.zapLogger (f s) = LoggerV2.zapLogger s) ->
  (Run2.invoke o l' st ≫= LoggerV2.Sync l)
  = (LoggerV2.Sync l st ≫= fun r => pair r.1 <$> Run2.invoke o l' r.2).
Proof.
  intros Hsafe. destruct o as [f|];
    [|by destruct (LoggerV2.Sync l st)].
  cbn [Run2.invoke mbind option_bind].
  destruct (LoggerV2.heap st !! l) as [s|] eqn:Hl.
  - match goal with
    | |- LoggerV2.Sync l ?sto = _ =>
        assert (exists s', LoggerV2.heap sto !! l = Some s' /\
                           LoggerV2.zapLogger s' = LoggerV2.zapLogger s)
          as (s' & Hl' & Hz)
    end.
    { cbn [LoggerV2.heap]. rewrite list_lookup_alter.
      case_decide as Heq; [subst l'|]; rewrite Hl; [|by eauto].
      destruct Hsafe as [Hne|Hsame]; [congruence|].
      exists (f s). split; [done|]. by apply Hsame. }
    rewrite (Sync2_eq l _ s' Hl'), (Sync2_eq l st s Hl), Hz. reflexivity.
  - unfold LoggerV2.Sync. rewrite Hl. cbn [LoggerV2.heap].
    rewrite list_lookup_alter. case_decide; [subst l'|]; by rewrite Hl.
Qed.


(** X6: a child has no live link to its parent: whatever option (any
    function on the struct, or nil) is later run on the parent, the child's
    struct is as it was and each of its log calls and flushes behaves as
    before. *)
Theorem X6_child_has_no_link_to_parent (l : nat) (keyVals : Go.Slice)
    (st st' : State2) (parent : Logger2) (child : nat) (o : Option2) :
  LoggerV2.heap st !! l = Some parent ->
  LoggerV2.With l keyVals st = Some (child, st') ->
  (forall st_o, Run2.invoke o l st' = Some st_o ->
                LoggerV2.heap st_o !! child = LoggerV2.heap st' !! child) /\
  (forall c ctx msg fields,
      (Run2.invoke o l st' ≫= V2.call c child ctx msg fields)
      = (V2.call c child ctx msg fields st' ≫= Run2.invoke o l)) /\
  (Run2.invoke o l st' ≫= LoggerV2.Sync child)
  = (LoggerV2.Sync child st' ≫=
       fun r => pair r.1 <$> Run2.invoke o l r.2).
Proof.
  intros Hl Hwith. rewrite (With2_eq l keyVals st parent Hl) in Hwith.
  injection Hwith as <- <-. apply lookup_lt_Some in Hl.
  assert (Hne : List.length (LoggerV2.heap st) <> l) by lia.
  split; [|split].
  - intros st_o. destruct o as [f|]; [|discriminate].
    intros [= <-]. cbn [LoggerV2.heap]. by rewrite list_lookup_alter_ne.
  - intros. apply call2_invoke. by left.
  - apply Sync2_invoke. by left.
Qed.

(** X9: the child still auto-injects trace ids.  A log call on a child
    derived by With goes to the handle that the engine derived from the
    parent's, with exactly the fields (trace pair included) that the parent
    would hand over for the same context and fields.  Both variants. *)
Theorem X9_child_injects_trace_id (c : Call) (l : nat) (keyVals : Go.Slice)
    (ctx : Ctx) (msg : string) (fields : Go.Slice) :
  (forall (st st' : State2) parent child,
      LoggerV2.heap st !! l = Some parent ->
      LoggerV2.With l keyVals st = Some (child, st') ->
      exists cs,
        LoggerV2.heap st' !! child = Some cs /\
        LoggerV2.zapLogger cs
        = (SugaredWith (LoggerV2.zapLogger parent)
             (Go.elems (LoggerV2.arrays st) keyVals) (LoggerV2.world st)).1 /\
        V2.call c child ctx msg fields st'
        = Some (V2.delegated c cs msg
                  (Go.elems
                     (LoggerV2.appendTraceID parent ctx fields
                        (LoggerV2.arrays st)).2
                     (LoggerV2.appendTraceID parent ctx fields
                        (LoggerV2.arrays st)).1)
                  (LoggerV2.appendTraceID parent ctx fields
                     (LoggerV2.arrays st)).2 st')) /\
  (forall (st st' : State1) parent child,
      LoggerV1.heap st !! l = Some parent ->
      LoggerV1.With l keyVals st = Some (child, st') ->
      exists cs,
        LoggerV1.heap st' !! child = Some cs /\
        LoggerV1.zapLogger cs
        = (SugaredWith (LoggerV1.zapLogger parent)
             (Go.elems (LoggerV1.arrays st) keyVals) (LoggerV1.world st)).1 /\
        V1.call c child ctx msg fields st'
        = Some (V1.delegated c cs msg
                  (Go.elems
                     (LoggerV1.appendTraceID parent ctx fields
                        (LoggerV1.arrays st)).2
                     (LoggerV1.appendTraceID parent ctx fields
                        (LoggerV1.arrays st)).1)
                  (LoggerV1.appendTraceID parent ctx fields
                     (LoggerV1.arrays st)).2 st')).
Proof.
  split; intros st st' parent child Hl Hwith.
  - rewrite (With2_eq l keyVals st parent Hl) in Hwith.
    injection Hwith as <- <-. eexists. cbn [LoggerV2.heap].
    split; [by apply list_lookup_middle|]. split; [reflexivity|].
    erewrite call2_eq by by apply list_lookup_middle.
    reflexivity.
  - rewrite (With1_eq l keyVals st parent Hl) in Hwith.
    injection Hwith as <- <-. eexists. cbn [LoggerV1.heap].
    split; [by apply list_lookup_middle|]. split; [reflexivity|].
    erewrite call1_eq by by apply list_lookup_middle.
    reflexivity.
Qed.

(** X10: deriving a child does not change what the parent logs: after
    With, a log call on the parent goes to the parent's own handle with the
    same fields and the same effect on the arrays as before; only the world
    it acts on is the one the engine's With left.  Both variants. *)
Theorem X10_parent_logs_as_before (c : Call) (l : nat) (keyVals : Go.Slice)
    (ctx : Ctx) (msg : string) (fields : Go.Slice) :
  (forall (st st' : State2) parent child,
      LoggerV2.heap st !! l = Some parent ->
      LoggerV2.With l keyVals st = Some (child, st') ->
      exists fs m,
        V2.call c l ctx msg fields st
        = Some (V2.delegated c parent msg fs m st) /\
        V2.call c l ctx msg fields st'
        = Some (V2.delegated c parent msg fs m st')) /\
  (forall (st st' : State1) parent child,
      LoggerV1.heap st !! l = Some parent ->
      LoggerV1.With l keyVals st = Some (child, st') ->
      exists fs m,
        V1.call c l ctx msg fields st
        = Some (V1.delegated c parent msg fs m st) /\
        V1.call c l ctx msg fields st'
        = Some (V1.delegated c parent msg fs m st')).
Proof.
  split; intros st st' parent child Hl Hwith.
  - rewrite (With2_eq l keyVals st parent Hl) in Hwith.
    injection Hwith as <- <-. eexists _, _.
    split; [by apply call2_eq|].
    erewrite call2_eq by (cbn [LoggerV2.heap]; by apply lookup_app_l_Some).
    reflexivity.
  - rewrite (With1_eq l keyVals st parent Hl) in Hwith.
    injection Hwith as <- <-. eexists _, _.
    split; [by apply call1_eq|].
    erewrite call1_eq by (cbn [LoggerV1.heap]; by apply lookup_app_l_Some).
    reflexivity.
Qed.

(** X12: the only cells of existing arrays that a log call can write are
    the two cells right after the window of the slice it was given; every
    other cell of every existing array keeps its value, no array is
    removed, and when the slice has fewer than two cells of spare capacity
    no existing array is written at all.  Both variants. *)
Theorem X12_log_call_write_footprint (c : Call) (l : nat) (ctx : Ctx)
    (msg : string) (keyVals : Go.Slice) :
  (forall (st st' : State2),
      V2.call c l ctx msg keyVals st = Some st' ->
      (List.length (LoggerV2.arrays st)
       <= List.length (LoggerV2.arrays st'))%nat /\
      (forall a i,
          (a < List.length (LoggerV2.arrays st))%nat ->
          a <> Go.array keyVals \/
          (i < Go.off keyVals + Go.len keyVals)%nat \/
          (Go.off keyVals + Go.len keyVals + 2 <= i)%nat ->
          Go.cells (LoggerV2.arrays st') a !! i
          = Go.cells (LoggerV2.arrays st) a !! i) /\
      ((Go.cap keyVals < Go.len keyVals + 2)%nat ->
       forall a, (a < List.length (LoggerV2.arrays st))%nat ->
                 LoggerV2.arrays st' !! a = LoggerV2.arrays st !! a)) /\
  (forall (st st' : State1),
      V1.call c l ctx msg keyVals st = Some st' ->
      (List.length (LoggerV1.arrays st)
       <= List.length (LoggerV1.arrays st'))%nat /\
      (forall a i,
          (a < List.length (LoggerV1.arrays st))%nat ->
          a <> Go.array keyVals \/
          (i < Go.off keyVals + Go.len keyVals)%nat \/
          (Go.off keyVals + Go.len keyVals + 2 <= i)%nat ->
          Go.cells (LoggerV1.arrays st') a !! i
          = Go.cells (LoggerV1.arrays st) a !! i) /\
      ((Go.cap keyVals < Go.len keyVals + 2)%nat ->
       forall a, (a < List.length (LoggerV1.arrays st))%nat ->
                 LoggerV1.arrays st' !! a = LoggerV1.arrays st !! a)).
Proof.
  split; intros st st' Hcall.
  - destruct (call2_inv c l ctx msg keyVals st st' Hcall) as [s Hl].
    rewrite (call2_eq c l ctx msg keyVals st s Hl) in Hcall.
    injection Hcall as <-. cbn [V2.delegated LoggerV2.arrays].
    destruct (appendTraceID2_cases s ctx keyVals (LoggerV2.arrays st))
      as [-> | (id & _ & ->)]; cbn [snd].
    + by repeat split.
    + split; [apply append_arrays_length|]. split.
      * intros a i Ha Hout. by apply append_footprint.
      * intros Hcap a Ha. by apply append_no_capacity.
  - destruct (call1_inv c l ctx msg keyVals st st' Hcall) as [s Hl].
    rewrite (call1_eq c l ctx msg keyVals st s Hl) in Hcall.
    injection Hcall as <-. cbn [V1.delegated LoggerV1.arrays].
    destruct (appendTraceID1_cases s ctx keyVals (LoggerV1.arrays st))
      as [-> | (id & _ & ->)]; cbn [snd].
    + by repeat split.
    + split; [apply append_arrays_length|]. split.
      * intros a i Ha Hout. by apply append_footprint.
      * intros Hcap a Ha. by apply append_no_capacity.
Qed.

End MoreFacts.

(** * The usage examples *)
Section Readme.
Context {Ctx : Type} {Eng : Engine}.

Local Abbreviation Logger2 := (LoggerV2.Logger (Ctx:=Ctx) (Eng:=Eng)).
Local Abbreviation State2 := (LoggerV2.State (Ctx:=Ctx) (Eng:=Eng)).
Local Abbreviation Logger1 := (LoggerV1.Logger (Ctx:=Ctx) (Eng:=Eng)).
Local Abbreviation State1 := (LoggerV1.State (Ctx:=Ctx) (Eng:=Eng)).

Lemma live_call2 (c : Call) l ctx msg keyVals (st : State2) s :
  LoggerV2.heap st !! l = Some s ->
  exists st', V2.call c l ctx msg keyVals st = Some st' /\
              LoggerV2.heap st' = LoggerV2.heap st.
Proof. intros Hl. eexists. split; [by apply call2_eq | reflexivity]. Qed.

Lemma live_With2 l keyVals (st : State2) s :
  LoggerV2.heap st !! l = Some s ->
  exists st' cs, LoggerV2.With l keyVals st
                 = Some (List.length (LoggerV2.heap st), st') /\
                 LoggerV2.heap st' = LoggerV2.heap st ++ [cs].
Proof. intros Hl. eexists _, _. split; [by apply With2_eq | reflexivity]. Qed.

Lemma live_Sync2 l (st : State2) s :
  LoggerV2.heap st !! l = Some s ->
  exists err st', LoggerV2.Sync l st = Some (err, st').
Proof. intros Hl. eexists _, _. by apply Sync2_eq. Qed.

Lemma live_call1 (c : Call) l ctx msg keyVals (st : State1) s :
  LoggerV1.heap st !! l = Some s ->
  exists st', V1.call c l ctx msg keyVals st = Some st' /\
              LoggerV1.heap st' = LoggerV1.heap st.
Proof. intros Hl. eexists. split; [by apply call1_eq | reflexivity]. Qed.

Lemma live_With1 l keyVals (st : State1) s :
  LoggerV1.heap st !! l = Some s ->
  exists st' cs, LoggerV1.With l keyVals st
                 = Some (List.length (LoggerV1.heap st), st') /\
                 LoggerV1.heap st' = LoggerV1.heap st ++ [cs].
Proof. intros Hl. eexists _, _. split; [by apply With1_eq | reflexivity]. Qed.

Lemma live_Sync1 l (st : State1) s :
  LoggerV1.heap st !! l = Some s ->
  exists err st', LoggerV1.Sync l st = Some (err, st').
Proof. intros Hl. eexists _, _. by apply Sync1_eq. Qed.

(** With a live facade the steps of the example run to the end. *)
Lemma steps2_complete l ctx (st : State2) s :
  LoggerV2.heap st !! l = Some s ->
  is_Some (Readme2.steps (Some l) ctx st).
Proof.
  intros Hl. unfold Readme2.steps.
  cbn [mbind option_bind Variadic.literal].
  match goal with
  | |- context [LoggerV2.Info l ctx ?msg ?kv ?st0] =>
      destruct (live_call2 CInfo l ctx msg kv st0 s Hl) as (st1 & E1 & H1)
  end.
  cbn [V2.call] in E1. rewrite E1. cbn [mbind option_bind].
  cbn [Readme2.withArrays LoggerV2.heap] in H1. rewrite <- H1 in Hl.
  match goal with
  | |- context [LoggerV2.Error l ctx ?msg ?kv ?st0] =>
      destruct (live_call2 CError l ctx msg kv st0 s Hl) as (st2 & E2 & H2)
  end.
  cbn [V2.call] in E2. rewrite E2. cbn [mbind option_bind].
  cbn [Readme2.withArrays LoggerV2.heap] in H2. rewrite <- H2 in Hl.
  match goal with
  | |- context [LoggerV2.With l ?kv ?st0] =>
      destruct (live_With2 l kv st0 s Hl) as (st3 & cs & E3 & H3)
  end.
  rewrite E3. cbn [mbind option_bind].
  cbn [Readme2.withArrays LoggerV2.heap] in H3, E3 |- *.
  assert (Hchild : LoggerV2.heap st3 !! List.length (LoggerV2.heap st2)
                   = Some cs)
    by (rewrite H3; by apply list_lookup_middle).
  match goal with
  | |- context [LoggerV2.Debug ?child ctx ?msg ?kv ?st0] =>
      destruct (live_call2 CDebug child ctx msg kv st0 cs Hchild)
        as (st4 & E4 & H4)
  end.
  cbn [V2.call] in E4. rewrite E4. cbn [mbind option_bind].
  cbn [Readme2.withArrays LoggerV2.heap] in H4.
  assert (Hl4 : LoggerV2.heap st4 !! l = Some s)
    by (rewrite H4, H3; by apply lookup_app_l_Some).
  destruct (live_Sync2 l st4 s Hl4) as (err & st5 & E5).
  rewrite E5. cbn [mbind option_bind]. eauto.
Qed.

Lemma steps1_complete l ctx (st : State1) s :
  LoggerV1.heap st !! l = Some s ->
  is_Some (Readme1.steps (Some l) ctx st).
Proof.
  intros Hl. unfold Readme1.steps.
  cbn [mbind option_bind Variadic.literal].
  match goal with
  | |- context [LoggerV1.Info l ctx ?msg ?kv ?st0] =>
      destruct (live_call1 CInfo l ctx msg kv st0 s Hl) as (st1 & E1 & H1)
  end.
  cbn [V1.call] in E1. rewrite E1. cbn [mbind option_bind].
  cbn [Readme1.withArrays LoggerV1.heap] in H1. rewrite <- H1 in Hl.
  match goal with
  | |- context [LoggerV1.Error l ctx ?msg ?kv ?st0] =>
      destruct (live_call1 CError l ctx msg kv st0 s Hl) as (st2 & E2 & H2)
  end.
  cbn [V1.call] in E2. rewrite E2. cbn [mbind option_bind].
  cbn [Readme1.withArrays LoggerV1.heap] in H2. rewrite <- H2 in Hl.
  match goal with
  | |- context [LoggerV1.With l ?kv ?st0] =>
      destruct (live_With1 l kv st0 s Hl) as (st3 & cs & E3 & H3)
  end.
  rewrite E3. cbn [mbind option_bind].
  cbn [Readme1.withArrays LoggerV1.heap] in H3, E3 |- *.
  assert (Hchild : LoggerV1.heap st3 !! List.length (LoggerV1.heap st2)
                   = Some cs)
    by (rewrite H3; by apply list_lookup_middle).
  match goal with
  | |- context [LoggerV1.Debug ?child ctx ?msg ?kv ?st0] =>
      destruct (live_call1 CDebug child ctx msg kv st0 cs Hchild)
        as (st4 & E4 & H4)
  end.
  cbn [V1.call] in E4. rewrite E4. cbn [mbind option_bind].
  cbn [Readme1.withArrays LoggerV1.heap] in H4.
  assert (Hl4 : LoggerV1.heap st4 !! l = Some s)
    by (rewrite H4, H3; by apply lookup_app_l_Some).
  destruct (live_Sync1 l st4 s Hl4) as (err & st5 & E5).
  rewrite E5. cbn [mbind option_bind]. eauto.
Qed.

(** With a live facade whose trace function is the one of the example, and
    no array allocated yet, the steps of the example make the engine calls
    [exampleCalls]. *)
Lemma steps2_calls l ctx (st : State2) s :
  LoggerV2.heap st !! l = Some s ->
  LoggerV2.arrays st = [] ->
  LoggerV2.getTraceIDFn s = Some Readme2.traceFn ->
  exists printed st',
    Readme2.steps (Some l) ctx st = Some (printed, st') /\
    LoggerV2.world st'
    = exampleCalls (LoggerV2.zapLogger s) (LoggerV2.world st).
Proof.
  destruct st as [h m w], s as [z fn lv ps].
  cbn [LoggerV2.heap LoggerV2.arrays LoggerV2.world LoggerV2.getTraceIDFn
       LoggerV2.zapLogger].
  intros Hl -> [= ->].
  unfold Readme2.steps, exampleCalls, LoggerV2.Info, LoggerV2.Error,
    LoggerV2.Debug, LoggerV2.With, LoggerV2.Sync, LoggerV2.appendTraceID.
  do 3 (cbn -[Infow Errorw Debugw SugaredWith SugaredSync]; rewrite Hl).
  cbn -[Infow Errorw Debugw SugaredWith SugaredSync].
  destruct (SugaredWith _ _ _) as [sub w4].
  cbn -[Infow Errorw Debugw SugaredWith SugaredSync].
  rewrite list_lookup_middle by reflexivity.
  cbn -[Infow Errorw Debugw SugaredWith SugaredSync].
  rewrite (lookup_app_l_Some _ _ _ _ Hl).
  cbn -[Infow Errorw Debugw SugaredWith SugaredSync].
  destruct (SugaredSync _ _) as [err w5].
  eexists _, _. split; reflexivity.
Qed.

Lemma steps1_calls l ctx (st : State1) s :
  LoggerV1.heap st !! l = Some s ->
  LoggerV1.arrays st = [] ->
  LoggerV1.getTraceID s = Some Readme1.traceFn ->
  exists printed st',
    Readme1.steps (Some l) ctx st = Some (printed, st') /\
    LoggerV1.world st'
    = exampleCalls (LoggerV1.zapLogger s) (LoggerV1.world st).
Proof.
  destruct st as [h m w], s as [z fn].
  cbn [LoggerV1.heap LoggerV1.arrays LoggerV1.world LoggerV1.getTraceID
       LoggerV1.zapLogger].
  intros Hl -> [= ->].
  unfold Readme1.steps, exampleCalls, LoggerV1.Info, LoggerV1.Error,
    LoggerV1.Debug, LoggerV1.With, LoggerV1.Sync, LoggerV1.appendTraceID.
  do 3 (cbn -[Infow Errorw Debugw SugaredWith SugaredSync]; rewrite Hl).
  cbn -[Infow Errorw Debugw SugaredWith SugaredSync].
  destruct (SugaredWith _ _ _) as [sub w4].
  cbn -[Infow Errorw Debugw SugaredWith SugaredSync].
  rewrite list_lookup_middle by reflexivity.
  cbn -[Infow Errorw Debugw SugaredWith SugaredSync].
  rewrite (lookup_app_l_Some _ _ _ _ Hl).
  cbn -[Infow Errorw Debugw SugaredWith SugaredSync].
  destruct (SugaredSync _ _) as [err w5].
  eexists _, _. split; reflexivity.
Qed.

(** X2: the usage example of the options variant handles a failed
    construction by logging through the pointer that [New] returned, which
    is nil: whenever an engine initialization fails, [main] panics; it
    never reaches [os.Exit(1)].  When construction succeeds it runs to
    its end and returns. *)
Theorem X2_readme_example_panics_when_New_fails (ctx : Ctx) (st : State2) :
  (is_Some (V2.initError "myServiceName"
              [LoggerV2.WithTraceID (Some Readme2.traceFn)] st) ->
   Readme2.main ctx st = Panicked) /\
  (V2.initError "myServiceName"
     [LoggerV2.WithTraceID (Some Readme2.traceFn)] st = None ->
   exists printed st', Readme2.main ctx st = Returned printed st') /\
  (forall code printed st', Readme2.main ctx st <> Exited code printed st').
Proof.
  unfold Readme2.main, V2.initError. rewrite New2_eq.
  destruct (NewProduction (LoggerV2.world st)) as [[err|l0] w1].
  { cbn. split; [done|]. split; [done | by intros]. }
  unfold V2.resolve.
  cbn [V2.applyAll LoggerV2.WithTraceID mbind option_bind].
  destruct (Build _ true w1) as [[err|z] w2]; cbn [V2.newOutcome].
  { cbn. split; [done|]. split; [done | by intros]. }
  match goal with
  | |- context [Readme2.steps (Some ?l) ctx ?st0] =>
      destruct (steps2_complete l ctx st0 _
                  ltac:(by apply list_lookup_middle)) as [[printed st'] ->]
  end.
  split; [by intros [? ?]|]. split; [by eauto | by intros].
Qed.

(** X3: the usage example of the positional variant never panics: when
    the engine fails to initialize it prints the error and exits with
    status 1, having created no facade and written no array; otherwise it
    runs to its end and returns. *)
Theorem X3_readme_example_positional (ctx : Ctx) (st : State1) :
  (forall err,
      V1.initError "myServiceName" InfoLevel None st = Some err ->
      exists st',
        Readme1.main ctx st
        = Exited 1 ["failed to create logger: " +:+ err] st' /\
        LoggerV1.heap st' = LoggerV1.heap st /\
        LoggerV1.arrays st' = LoggerV1.arrays st) /\
  (V1.initError "myServiceName" InfoLevel None st = None ->
   exists printed st', Readme1.main ctx st = Returned printed st') /\
  Readme1.main ctx st <> Panicked.
Proof.
  unfold Readme1.main, V1.initError, LoggerV1.New.
  destruct (Build _ true (LoggerV1.world st)) as [[err|z] w].
  { split; [|by split]. intros ? [= <-]. eauto. }
  match goal with
  | |- context [Readme1.steps (Some ?l) ctx ?st0] =>
      destruct (steps1_complete l ctx st0 _
                  ltac:(by apply list_lookup_middle)) as [[printed st'] ->]
  end.
  split; [done|]. split; [by eauto | done].
Qed.

End Readme.

(** * Options as data, the two variants side by side, the test sink *)
Section OptionsAndVariants.
Context {Ctx : Type} {Eng : Engine}.

Local Abbreviation Logger2 := (LoggerV2.Logger (Ctx:=Ctx) (Eng:=Eng)).
Local Abbreviation State2 := (LoggerV2.State (Ctx:=Ctx) (Eng:=Eng)).
Local Abbreviation Logger1 := (LoggerV1.Logger (Ctx:=Ctx) (Eng:=Eng)).
Local Abbreviation State1 := (LoggerV1.State (Ctx:=Ctx) (Eng:=Eng)).
Local Abbreviation OptionSpec := (Options2.OptionSpec (Ctx:=Ctx)).

Lemma default_last_cons {A} (d v : A) (l : list A) :
  default d (last (v :: l)) = default v (last l).
Proof.
  revert d v. induction l as [|x l IH]; intros d v; [reflexivity|].
  rewrite last_cons_cons, (IH d x). by rewrite (IH v x).
Qed.

Lemma applyAll_normal_form (os : list OptionSpec) (s : Logger2) :
  V2.applyAll (Options2.toOption <$> os) s
  = Some {| LoggerV2.zapLogger := LoggerV2.zapLogger s;
            LoggerV2.getTraceIDFn :=
              default (LoggerV2.getTraceIDFn s) (last (Options2.traceIDs os));
            LoggerV2.level :=
              default (LoggerV2.level s) (last (Options2.levels os));
            LoggerV2.outputPaths :=
              default (LoggerV2.outputPaths s)
                (last (Options2.outputPathss os)) |}.
Proof.
  revert s. induction os as [|o os IH]; intros s; [by destruct s|].
  destruct o as [fn|lvl|ps];
    cbn [fmap list_fmap V2.applyAll Options2.toOption LoggerV2.WithTraceID
         LoggerV2.WithLevel LoggerV2.WithOutputPaths mbind option_bind];
    rewrite IH;
    cbn [Options2.traceIDs Options2.levels Options2.outputPathss
         omap list_omap LoggerV2.zapLogger LoggerV2.getTraceIDFn
         LoggerV2.level LoggerV2.outputPaths];
    fold (Options2.traceIDs os) (Options2.levels os)
      (Options2.outputPathss os);
    rewrite ?default_last_cons; reflexivity.
Qed.

(** X7: for options built by the three constructors, the struct that [New]
    resolves is given by the last option of each kind alone, with the
    default where a kind does not occur, and the engine handle is never
    touched; so two option lists that list the same trace functions, the
    same levels and the same output paths, each in the same order, resolve
    to the same struct, however the kinds are interleaved. *)
Theorem X7_options_normal_form (os : list OptionSpec) (l0 : SugaredLogger) :
  V2.resolve (Options2.toOption <$> os) l0
  = Some {| LoggerV2.zapLogger := l0;
            LoggerV2.getTraceIDFn :=
              default (Some (fun _ => "")) (last (Options2.traceIDs os));
            LoggerV2.level := default InfoLevel (last (Options2.levels os));
            LoggerV2.outputPaths :=
              default ["stdout"] (last (Options2.outputPathss os)) |} /\
  (forall os' : list OptionSpec,
      Options2.traceIDs os' = Options2.traceIDs os ->
      Options2.levels os' = Options2.levels os ->
      Options2.outputPathss os' = Options2.outputPathss os ->
      V2.resolve (Options2.toOption <$> os') l0
      = V2.resolve (Options2.toOption <$> os) l0).
Proof.
  unfold V2.resolve. split.
  - by rewrite applyAll_normal_form.
  - intros os' Ht Hl Hp. rewrite !applyAll_normal_form.
    by rewrite Ht, Hl, Hp.
Qed.

(** X8: the two variants are one component, up to the engine
    initialization that only the options variant starts with.  [New] of
    the options variant first calls [zap.NewProduction()], which the
    positional [New] does not: when that call fails, the options [New]
    returns its error and a nil pointer, whatever the positional [New]
    would do.  When it succeeds, then from the world it leaves, [New] with
    the options [WithTraceID fn], [WithLevel level] and, when paths are
    given, [WithOutputPaths paths], builds the engine from the very
    configuration that the positional [New] builds it from, returns the
    same error, and on success a facade with the same handle and trace
    function; and on such facades every log call, derivation and flush of
    one variant does to the arrays and the world what the other does, and
    returns the same error. *)
Theorem X8_variants_agree :
  (forall service fn level (ps : option (list string)) (st2 : State2),
      let opts :=
        [LoggerV2.WithTraceID fn; LoggerV2.WithLevel level] ++
        match ps with
        | Some paths => [LoggerV2.WithOutputPaths paths]
        | None => []
        end in
      (forall err w1,
          NewProduction (LoggerV2.world st2) = (inl err, w1) ->
          LoggerV2.New service opts st2
          = Some (None, Some err,
                  {| LoggerV2.heap := LoggerV2.heap st2;
                     LoggerV2.arrays := LoggerV2.arrays st2;
                     LoggerV2.world := w1 |})) /\
      (forall l0 (st1 : State1),
          NewProduction (LoggerV2.world st2) = (inr l0, LoggerV1.world st1) ->
          LoggerV1.arrays st1 = LoggerV2.arrays st2 ->
          exists p1 p2 e st1' st2',
            LoggerV1.New service fn level ps st1 = (p1, e, st1') /\
            LoggerV2.New service opts st2 = Some (p2, e, st2') /\
            Corr.sameOutside st1' st2' /\
            (e = None ->
             exists l1 l2 s1 s2,
               p1 = Some l1 /\ p2 = Some l2 /\
               LoggerV1.heap st1' !! l1 = Some s1 /\
               LoggerV2.heap st2' !! l2 = Some s2 /\
               Corr.sameFacade s1 s2))) /\
  (forall l1 l2 (st1 : State1) (st2 : State2) s1 s2,
      LoggerV1.heap st1 !! l1 = Some s1 ->
      LoggerV2.heap st2 !! l2 = Some s2 ->
      Corr.sameFacade s1 s2 ->
      Corr.sameOutside st1 st2 ->
      (forall c ctx msg keyVals,
          exists st1' st2',
            V1.call c l1 ctx msg keyVals st1 = Some st1' /\
            V2.call c l2 ctx msg keyVals st2 = Some st2' /\
            Corr.sameOutside st1' st2') /\
      (forall keyVals,
          exists c1 c2 st1' st2' s1' s2',
            LoggerV1.With l1 keyVals st1 = Some (c1, st1') /\
            LoggerV2.With l2 keyVals st2 = Some (c2, st2') /\
            LoggerV1.heap st1' !! c1 = Some s1' /\
            LoggerV2.heap st2' !! c2 = Some s2' /\
            Corr.sameFacade s1' s2' /\
            Corr.sameOutside st1' st2') /\
      (exists err st1' st2',
          LoggerV1.Sync l1 st1 = Some (err, st1') /\
          LoggerV2.Sync l2 st2 = Some (err, st2') /\
          Corr.sameOutside st1' st2')).
Proof.
  split.
  - intros service fn level ps st2 opts. split.
    { intros err w1 Hprod. by rewrite New2_eq, Hprod. }
    intros l0 st1 Hprod Harrays.
    rewrite New2_eq, Hprod. unfold LoggerV1.New.
    assert (Hres : exists s,
               V2.resolve opts l0 = Some s /\
               LoggerV2.getTraceIDFn s = fn /\
               LoggerV2.newConfig service s
               = LoggerV1.newConfig service level ps)
      by (subst opts; destruct ps; by eexists).
    destruct Hres as (s & -> & Hfn & Hcfg). cbn [mbind option_bind].
    rewrite Hcfg.
    destruct (Build _ true (LoggerV1.world st1)) as [[err|z] w];
      cbn [V2.newOutcome].
    + eexists _, _, _, _, _. split; [reflexivity|]. split; [reflexivity|].
      split; [by split | discriminate].
    + eexists _, _, _, _, _. split; [reflexivity|]. split; [reflexivity|].
      split; [by split|]. intros _. eexists _, _, _, _.
      split; [reflexivity|]. split; [reflexivity|].
      cbn [LoggerV1.heap LoggerV2.heap].
      split; [by apply list_lookup_middle|].
      split; [by apply list_lookup_middle|].
      split; [reflexivity|]. by rewrite <- Hfn.
  - intros l1 l2 st1 st2 s1 s2 Hl1 Hl2 [Hz Hfn] [Harrays Hworld].
    split; [|split].
    + intros c ctx msg keyVals. eexists _, _.
      split; [by apply call1_eq|]. split; [by apply call2_eq|].
      unfold Corr.sameOutside, V1.delegated, V2.delegated.
      cbn [LoggerV1.arrays LoggerV1.world LoggerV2.arrays LoggerV2.world].
      rewrite (appendTraceID_variants s1 s2 _ _ _ Hfn), Harrays, Hz, Hworld.
      by split.
    + intros keyVals.
      rewrite (With1_eq l1 keyVals st1 s1 Hl1),
        (With2_eq l2 keyVals st2 s2 Hl2).
      eexists _, _, _, _, _, _.
      split; [reflexivity|]. split; [reflexivity|].
      cbn [LoggerV1.heap LoggerV2.heap].
      split; [by apply list_lookup_middle|].
      split; [by apply list_lookup_middle|].
      unfold Corr.sameFacade, Corr.sameOutside. cbn.
      by rewrite Harrays, Hz, Hworld, Hfn.
    + rewrite (Sync1_eq l1 st1 s1 Hl1), (Sync2_eq l2 st2 s2 Hl2).
      eexists _, _, _. rewrite Hz, Hworld.
      split; [reflexivity|]. split; [reflexivity|].
      unfold Corr.sameOutside. cbn. by rewrite Harrays.
Qed.

End OptionsAndVariants.

Section TestSink.
Import MemorySink.

(** X11: the sink of the test loses nothing: after any sequence of writes,
    flushes and closes it holds what it held before followed by the written
    chunks in order; every [Write] reports the full length of its chunk and
    no error, and [Sync] and [Close] report no error and change nothing. *)
Theorem X11_memorySink_accumulates (m : memorySink) (us : list Use) :
  logs (fold_left use us m) = logs m ++ concat (chunk <$> us) /\
  (forall p, (Write m p).2 = (List.length p, None)) /\
  Sync m = (m, None) /\ Close m = (m, None).
Proof.
  split; [|by repeat split].
  revert m. induction us as [|u us IH]; intros m.
  - cbn. by rewrite app_nil_r.
  - cbn [fold_left fmap list_fmap concat]. rewrite IH.
    destruct u; cbn; by rewrite ?app_assoc, ?app_nil_r.
Qed.

End TestSink.

(** * What the usage examples write, in the engine model *)
Section ReadmeOutput.
Context {Ctx : Type}.

(** X13: in the engine model, started in a world where standard output
    and standard error open, each usage example writes exactly two records
    to standard output: the Info record and the Error record, each with its
    fields followed by the trace pair and with the service as initial
    field.  The Debug call on the sub-logger writes nothing, because the
    level is Info in both examples. *)
Theorem X13_readme_examples_write_two_records (ctx : Ctx)
    (w : ZapModel.ZWorld) :
  "stdout" ∉ ZapModel.unopenable w ->
  let record lvl msg fields :=
    ("stdout",
     {| ZapModel.entry_level := lvl;
        ZapModel.entry_msg := msg;
        ZapModel.entry_initial := {[ "service" := AString "myServiceName" ]};
        ZapModel.entry_persistent := [];
        ZapModel.entry_fields :=
          fields ++ [AString "trace_id"; AString "fake-trace-id"] |}) in
  let records :=
    [ record InfoLevel "Hello from logger" [AString "key"; AString "value"];
      record ErrorLevel "An error occurred" [AString "code"; AInt 500] ] in
  ("stderr" ∉ ZapModel.unopenable w ->
   exists printed st',
     Readme2.main ctx (@LoggerV2.Build_State Ctx ZapModel.engine [] [] w)
     = Returned printed st' /\
     ZapModel.written (LoggerV2.world st') = ZapModel.written w ++ records) /\
  (exists printed st',
     Readme1.main ctx (@LoggerV1.Build_State Ctx ZapModel.engine [] [] w)
     = Returned printed st' /\
     ZapModel.written (LoggerV1.world st') = ZapModel.written w ++ records).
Proof.
  intros Hout record records. subst record records. split.
  - intros Herr.
    destruct (build_opens NewProductionConfig true w)
      as (l0 & w1 & Hprod); [repeat constructor; done|].
    apply build_handle in Hprod as Hw1.
    destruct Hw1 as (_ & _ & _ & _ & _ & Hunopenable & Hwritten1 & Hcounters1).
    destruct (build_opens
                (LoggerV2.newConfig (Ctx:=Ctx) (Eng:=ZapModel.engine)
                   "myServiceName"
                   (@LoggerV2.Build_Logger Ctx ZapModel.engine l0
                      (Some Readme2.traceFn) InfoLevel ["stdout"])) true w1)
      as (z & w2 & Hbuild);
      [rewrite Hunopenable; repeat constructor; done|].
    apply build_handle in Hbuild as Hz.
    destruct Hz as (Hlevel & Hout2 & Hpersistent & Hinitial & Hsm & _
                    & Hwritten2 & Hcounters2).
    unfold Readme2.main. rewrite New2_eq.
    cbn [NewProduction Build ZapModel.engine LoggerV2.world]. rewrite Hprod.
    unfold V2.resolve.
    cbn [V2.applyAll LoggerV2.WithTraceID LoggerV2.defaultLogger
         LoggerV2.zapLogger LoggerV2.level LoggerV2.outputPaths
         mbind option_bind].
    rewrite Hbuild. cbn [V2.newOutcome LoggerV2.heap app List.length].
    match goal with
    | |- context [Readme2.steps (Some ?l) ctx ?st0] =>
        destruct (steps2_calls l ctx st0 _ eq_refl eq_refl eq_refl)
          as (printed & st' & -> & Hworld)
    end.
    exists printed, st'. split; [reflexivity|]. rewrite Hworld.
    cbn [LoggerV2.world LoggerV2.zapLogger LoggerV2.setZapLogger].
    erewrite exampleCalls_written; [|exact Hlevel|exact Hsm|done|].
    + rewrite Hwritten2, Hwritten1, Hout2, Hinitial, Hpersistent.
      by rewrite <- app_assoc.
    + intros lvl msg. eapply counterAt_fresh; [exact Hcounters2|reflexivity].
  - destruct (build_opens
                (LoggerV1.newConfig "myServiceName" InfoLevel None) true w)
      as (z & w1 & Hbuild); [repeat constructor; done|].
    apply build_handle in Hbuild as Hz.
    destruct Hz as (Hlevel & Hout1 & Hpersistent & Hinitial & Hsm & _
                    & Hwritten1 & Hcounters1).
    unfold Readme1.main, LoggerV1.New.
    cbn [Build ZapModel.engine LoggerV1.world]. rewrite Hbuild.
    cbn [LoggerV1.heap app List.length].
    match goal with
    | |- context [Readme1.steps (Some ?l) ctx ?st0] =>
        destruct (steps1_calls l ctx st0 _ eq_refl eq_refl eq_refl)
          as (printed & st' & -> & Hworld)
    end.
    exists printed, st'. split; [reflexivity|]. rewrite Hworld.
    cbn [LoggerV1.world LoggerV1.zapLogger].
    erewrite exampleCalls_written; [|exact Hlevel|exact Hsm|done|].
    + rewrite Hwritten1, Hout1, Hinitial, Hpersistent.
      by rewrite <- app_assoc.
    + intros lvl msg. eapply counterAt_fresh; [exact Hcounters1|reflexivity].
Qed.

End ReadmeOutput.

(** * The severity gate of a constructed facade, in the engine model *)
Section SeverityGate.
Context {Ctx : Type}.

Local Abbreviation State2 := (LoggerV2.State (Ctx:=Ctx) (Eng:=ZapModel.engine)).
Local Abbreviation Logger2 := (LoggerV2.Logger (Ctx:=Ctx) (Eng:=ZapModel.engine)).
Local Abbreviation Option2 := (LoggerV2.Option (Ctx:=Ctx) (Eng:=ZapModel.engine)).
Local Abbreviation State1 := (LoggerV1.State (Ctx:=Ctx) (Eng:=ZapModel.engine)).
Local Abbreviation Logger1 := (LoggerV1.Logger (Ctx:=Ctx) (Eng:=ZapModel.engine)).

(** *** No operation removes a table of counters *)





(** *** A log call on a handle that the engine built from a configuration
    of the wrapper *)



End SeverityGate.

(** * Concrete runs of the further properties *)
Section MoreRuns.
Import Examples Examples2.

(** A facade built with [WithTraceID(nil)] hands over the two fields. *)
Lemma X1_witness :
  exists s,
    LoggerV2.heap stNilTrace !! 0%nat = Some s /\
    V2.call CInfo 0%nat ctxTraced "hello" kv stNilTrace
    = Some (V2.delegated CInfo s "hello" [AString "k"; AInt 1] mem0
              stNilTrace).
Proof.
  apply (proj1 (X1_nil_trace_function CInfo ctxTraced "hello" kv)
           "svc" []
           [LoggerV2.WithLevel DebugLevel;
            LoggerV2.WithOutputPaths ["mem://buf"]]
           st2 stNilTrace 0%nat eq_refl).
  constructor; [left; by eexists|].
  constructor; [right; by eexists|]. constructor.
Defined.

(** Standard output cannot be opened: the example panics. *)
Lemma X2_witness : Readme2.main ctxPlain (start2 wClosed) = Panicked.
Proof.
  apply (proj1 (X2_readme_example_panics_when_New_fails ctxPlain
                  (start2 wClosed))).
  by eexists.
Defined.

(** Standard output cannot be opened: the example prints and exits. *)
Lemma X3_witness :
  exists st',
    Readme1.main ctxPlain (start1 wClosed)
    = Exited 1 ["failed to create logger: couldn't open sink stdout"] st'.
Proof.
  destruct (proj1 (X3_readme_example_positional ctxPlain (start1 wClosed))
              "couldn't open sink stdout" eq_refl)
    as (st' & Hmain & _).
  exists st'. exact Hmain.
Defined.

(** After a construction, two log calls, a derivation and a flush the
    default facade is still what it was. *)
Lemma X4_witness :
  exists st',
    Run2.run program stDefault2 = Some st' /\
    LoggerV2.heap st' !! 0%nat = Some defaultFacade2.
Proof.
  assert (Hrun : is_Some (Run2.run program stDefault2))
    by (eexists; reflexivity).
  destruct Hrun as [st' Hrun].
  exists st'. split; [exact Hrun|].
  exact (proj2 (proj1 X4_facades_are_immutable program stDefault2 st' Hrun)
           0%nat defaultFacade2 eq_refl).
Defined.


(** The parent loses its trace function; the child keeps its own. *)
Lemma X6_witness :
  exists st_o,
    Run2.invoke (LoggerV2.WithTraceID None) 0%nat stChild = Some st_o /\
    LoggerV2.heap st_o !! 1%nat = Some childFacade.
Proof.
  eexists. split; [reflexivity|].
  apply (proj1 (X6_child_has_no_link_to_parent 0%nat component stFacade2
                  stChild facade2 1%nat (LoggerV2.WithTraceID None)
                  eq_refl eq_refl) _ eq_refl).
Defined.

(** A level and output paths, in either order. *)
Lemma X7_witness :
  V2.resolve (Ctx:=Ctx) (Eng:=ZapModel.engine)
    (Options2.toOption <$>
       [Options2.SOutputPaths ["mem://buf"]; Options2.SLevel DebugLevel])
    productionHandle
  = V2.resolve (Ctx:=Ctx) (Eng:=ZapModel.engine)
      (Options2.toOption <$>
         [Options2.SLevel DebugLevel; Options2.SOutputPaths ["mem://buf"]])
      productionHandle.
Proof.
  apply (proj2 (X7_options_normal_form
                  [Options2.SLevel DebugLevel;
                   Options2.SOutputPaths ["mem://buf"]]
                  (productionHandle : @SugaredLogger ZapModel.engine))
           [Options2.SOutputPaths ["mem://buf"]; Options2.SLevel DebugLevel]
           eq_refl eq_refl eq_refl).
Defined.

(** The scenario facades of the two variants log alike. *)
Lemma X8_witness :
  exists st1' st2',
    V1.call CInfo 0%nat ctxTraced "hello" kv stFacade1 = Some st1' /\
    V2.call CInfo 0%nat ctxTraced "hello" kv stFacade2 = Some st2' /\
    Corr.sameOutside st1' st2'.
Proof.
  apply (proj1 (proj2 X8_variants_agree 0%nat 0%nat stFacade1 stFacade2
                  facade1 facade2 eq_refl eq_refl
                  (conj eq_refl eq_refl) (conj eq_refl eq_refl))).
Defined.

(** The child of the scenario facade logs with the trace pair. *)
Lemma X9_witness :
  exists cs,
    LoggerV2.heap stChild !! 1%nat = Some cs /\
    V2.call CDebug 1%nat ctxTraced "detail" kv stChild
    = Some (V2.delegated CDebug cs "detail"
              [AString "k"; AInt 1; AString "trace_id"; AString "abc123"]
              memTraced stChild).
Proof.
  destruct (proj1 (X9_child_injects_trace_id CDebug 0%nat component ctxTraced
                     "detail" kv)
              stFacade2 stChild facade2 1%nat eq_refl eq_refl)
    as (cs & Hcs & _ & Hcall).
  exists cs. split; [exact Hcs | exact Hcall].
Defined.

(** The scenario facade logs the same before and after the derivation. *)
Lemma X10_witness :
  exists fs m,
    V2.call CInfo 0%nat ctxTraced "hello" kv stFacade2
    = Some (V2.delegated CInfo facade2 "hello" fs m stFacade2) /\
    V2.call CInfo 0%nat ctxTraced "hello" kv stChild
    = Some (V2.delegated CInfo facade2 "hello" fs m stChild).
Proof.
  apply (proj1 (X10_parent_logs_as_before CInfo 0%nat component ctxTraced
                  "hello" kv)
           stFacade2 stChild facade2 1%nat eq_refl eq_refl).
Defined.

(** The call with [base[:2]...]: the first two cells of the caller's array
    are as they were. *)
Lemma X12_witness :
  Go.cells memOverwritten 2 !! 1%nat = Go.cells mem0 2 !! 1%nat.
Proof.
  destruct (proj1 (X12_log_call_write_footprint CInfo 0%nat ctxTraced "hello"
                     basePrefix)
              stFacade2
              (V2.delegated CInfo facade2 "hello"
                 [AString "a"; AInt 1; AString "trace_id"; AString "abc123"]
                 memOverwritten stFacade2)
              eq_refl)
    as (_ & Hcells & _).
  apply (Hcells 2%nat 1%nat); cbn; lia.
Defined.

(** [New] with the trace function as only option leaves [stTraced], and
    the hundred calls write a hundred records. *)
Example traced_New :
  LoggerV2.New "svc" tracedOpts st2 = Some (Some 0%nat, None, stTraced).
Proof. reflexivity. Qed.

Example hundredCalls_written :
  List.length (ZapModel.written (LoggerV2.world stBusy)) = 100%nat.
Proof. vm_compute. reflexivity. Qed.

(** The next call with that message writes nothing; one second later it
    is written again. *)
Example next_call_dropped :
  List.length
    (ZapModel.written
       (LoggerV2.world
          (default stBusy
             (LoggerV2.Info 0%nat ctxPlain "hello" kv stBusy)))) = 100%nat /\
  List.length
    (ZapModel.written
       (LoggerV2.world
          (default stLater
             (LoggerV2.Info 0%nat ctxPlain "hello" kv stLater)))) = 101%nat.
Proof. split; vm_compute; reflexivity. Qed.



(** Both examples in the world [w0], whose record list is empty at the
    start: each leaves two records. *)
Lemma X13_witness :
  (exists printed st',
      Readme2.main ctxPlain (start2 w0) = Returned printed st' /\
      List.length (ZapModel.written (LoggerV2.world st')) = 2%nat) /\
  (exists printed st',
      Readme1.main ctxPlain (start1 w0) = Returned printed st' /\
      List.length (ZapModel.written (LoggerV1.world st')) = 2%nat).
Proof.
  assert (Hout : "stdout" ∉ ZapModel.unopenable w0) by compute_done.
  assert (Herr : "stderr" ∉ ZapModel.unopenable w0) by compute_done.
  pose proof (X13_readme_examples_write_two_records ctxPlain w0 Hout) as H.
  cbv zeta in H. destruct H as [H2 H1]. split.
  - destruct (H2 Herr) as (printed & st' & Hmain & Hwritten).
    exists printed, st'. split; [exact Hmain|]. rewrite Hwritten. reflexivity.
  - destruct H1 as (printed & st' & Hmain & Hwritten).
    exists printed, st'. split; [exact Hmain|]. rewrite Hwritten. reflexivity.
Defined.

End MoreRuns.
